(** * The ID relation index of [Main] (blenkernel/intern/main.c) and the
      geometry column adapter of the spreadsheet editor
      (editors/space_spreadsheet/spreadsheet_data_source_geometry.cc).

    The C code is embedded shallowly: a non-NULL [ID *] is an address
    (a [positive]), a nullable pointer is an [option], the [GHash] keyed by
    ID pointers is a [gmap], the singly linked lists of
    [MainIDRelationsEntryItem] (chained through [next]) are Rocq lists whose
    head is the most recently linked item, and in-place updates through
    [entry_p] are [alter] on the map. *)

From Stdlib Require Import ZArith String.
From stdpp Require Import gmap list fin_maps.

Local Open Scope Z_scope.
#[local] Set Warnings "-clear-no-such-hyp".

(** ** Data model *)

(** [ID *] (non-NULL) and [ID **] (the address of a reference field). *)
Abbreviation ID := positive (only parsing).
Abbreviation IDSlot := positive (only parsing).

(** The union [id_pointer] of [MainIDRelationsEntryItem]: [from] is the user
    ID, [to] is the address of the pointer field inside the user. *)
Inductive MainIDRelationsEntryItem_id_pointer :=
  | id_pointer_from (from : ID)
  | id_pointer_to (to : IDSlot).

(** [MainIDRelationsEntryItem], without its [next] link. *)
Record MainIDRelationsEntryItem := {
  id_pointer : MainIDRelationsEntryItem_id_pointer;
  item_session_uuid : Z;
  usage_flag : Z
}.

(** [MainIDRelationsEntry]. *)
Record MainIDRelationsEntry := {
  from_ids : list MainIDRelationsEntryItem;
  to_ids : list MainIDRelationsEntryItem;
  session_uuid : Z;
  tags : Z
}.

(** [MainIDRelations]. The [entry_items_pool] only provides the storage of
    the items held in the lists above. *)
Record MainIDRelations := {
  relations_from_pointers : gmap positive MainIDRelationsEntry;
  flag : Z
}.

(** [Main], restricted to what the relation code reads and writes: the
    list-bases of IDs, in the order [FOREACH_MAIN_ID] walks them, and the
    nullable [relations] pointer. *)
Record Main := {
  main_listbases : list (list ID);
  relations : option MainIDRelations
}.

(** [LibraryIDLinkCallbackData]; [user_data] is threaded as the state. *)
Record LibraryIDLinkCallbackData := {
  cb_id_self : ID;
  cb_id_pointer : IDSlot;
  cb_cb_flag : Z
}.

(** What main.c takes from the headers it includes (DNA_ID.h,
    BKE_lib_query.h, BKE_main.h, BLI_assert.h): whether [BLI_assert] is
    compiled in, and the values of the constants it names. *)
Record Environment := {
  BLI_assert_enabled : bool;
  MAIN_ID_SESSION_UUID_UNSET : Z;
  IDWALK_RET_NOP : Z;
  IDWALK_READONLY : Z;
  IDWALK_INCLUDE_UI : Z;
  MAINIDRELATIONS_INCLUDE_UI : Z
}.

(** What the relation code reads from memory, which it never writes:
    [id->session_uuid], [*id_pointer], and for each ID and walk flag the
    reference fields handed to the callback with their [cb_flag]. *)
Record Memory := {
  id_session_uuid : ID → Z;
  deref : IDSlot → option ID;
  id_reference_fields : ID → Z → list (IDSlot * Z)
}.

(** [unsigned int] wrap-around, for [entry->tags]. *)
Definition uint (z : Z) : Z := z mod 2 ^ 32.

(** Modelled from the spec: [FOREACH_MAIN_ID] (BKE_main.h is missing) visits
    every Object of the Registry once, list-base after list-base, keeping the
    insertion order within a kind. *)
Definition FOREACH_MAIN_ID (bmain : Main) : list ID :=
  concat (main_listbases bmain).

Section relations.
Context (env : Environment) (mem : Memory).

(** Modelled from the spec: [BLI_assert] (BLI_assert.h is missing) is a
    programming-error assertion: when assertions are compiled in, a false
    condition aborts the run ([None]); otherwise it has no effect. *)
Definition BLI_assert (cond : bool) : option unit :=
  if BLI_assert_enabled env && negb cond then None else Some tt.

(** The block written three times in main.c (lines 229-236, 248-255 and
    291-297): [BLI_ghash_ensure_p] looks [id] up in the hash and, when there
    is no value yet, makes room for one; in that case the code stores a zeroed
    ([MEM_callocN]) entry there and sets its [session_uuid] to
    [id->session_uuid]; otherwise it only asserts, through [BLI_assert], that
    the stored [session_uuid] equals [id->session_uuid]. Afterwards [entry_p]
    designates the entry stored under [id]. *)
Definition relations_entry_ensure
    (gh : gmap positive MainIDRelationsEntry) (id : ID)
  : option (gmap positive MainIDRelationsEntry) :=
  match gh !! id with
  | None =>
      Some (<[id := {| from_ids := []; to_ids := [];
                       session_uuid := id_session_uuid mem id;
                       tags := 0 |}]> gh)
  | Some entry =>
      _ ← BLI_assert (bool_decide (session_uuid entry = id_session_uuid mem id));
      Some gh
  end.

(** [to_id_entry->next = entry->to_ids; ...; entry->to_ids = to_id_entry]. *)
Definition entry_link_to (item : MainIDRelationsEntryItem)
    (entry : MainIDRelationsEntry) : MainIDRelationsEntry :=
  {| from_ids := from_ids entry; to_ids := item :: to_ids entry;
     session_uuid := session_uuid entry; tags := tags entry |}.

(** [from_id_entry->next = entry->from_ids; ...; entry->from_ids = from_id_entry]. *)
Definition entry_link_from (item : MainIDRelationsEntryItem)
    (entry : MainIDRelationsEntry) : MainIDRelationsEntry :=
  {| from_ids := item :: from_ids entry; to_ids := to_ids entry;
     session_uuid := session_uuid entry; tags := tags entry |}.

(** main.c, lines 217-267. Every read of [*id_pointer] in the C text is a
    [deref mem id_pointer] here, the ones nested under the outer
    [if ( *id_pointer)] included. *)
Definition main_relations_create_idlink_cb
    (cb_data : LibraryIDLinkCallbackData) (bmain_relations : MainIDRelations)
  : option (Z * MainIDRelations) :=
  let id_self := cb_id_self cb_data in
  let id_pointer := cb_id_pointer cb_data in
  let cb_flag := cb_cb_flag cb_data in
  match deref mem id_pointer with
  | Some _ =>
      (* Add `id_pointer` as child of `id_self`. *)
      gh1 ← relations_entry_ensure (relations_from_pointers bmain_relations) id_self;
      let to_id_entry :=
        {| id_pointer := id_pointer_to id_pointer;
           item_session_uuid :=
             match deref mem id_pointer with
             | Some target => id_session_uuid mem target
             | None => MAIN_ID_SESSION_UUID_UNSET env
             end;
           usage_flag := cb_flag |} in
      let gh2 := alter (entry_link_to to_id_entry) id_self gh1 in
      (* Add `id_self` as parent of `id_pointer`. *)
      gh4 ← match deref mem id_pointer with
            | Some target =>
                gh3 ← relations_entry_ensure gh2 target;
                let from_id_entry :=
                  {| id_pointer := id_pointer_from id_self;
                     item_session_uuid := id_session_uuid mem id_self;
                     usage_flag := cb_flag |} in
                Some (alter (entry_link_from from_id_entry) target gh3)
            | None => Some gh2
            end;
      Some (IDWALK_RET_NOP env,
            {| relations_from_pointers := gh4; flag := flag bmain_relations |})
  | None => Some (IDWALK_RET_NOP env, bmain_relations)
  end.

(** Modelled from the spec: the Walker (lib_query.c is missing) invokes the
    callback exactly once per reference field occurrence of the object, null
    fields included, in the fixed order of the object's kind, and hands the
    same [user_data] to every call. *)
Fixpoint library_foreach_ID_link_fields (id : ID)
    (callback : LibraryIDLinkCallbackData → MainIDRelations → option (Z * MainIDRelations))
    (fields : list (IDSlot * Z)) (user_data : MainIDRelations)
  : option MainIDRelations :=
  match fields with
  | [] => Some user_data
  | (slot, cb_flag) :: fields' =>
      '(_, user_data') ←
        callback {| cb_id_self := id; cb_id_pointer := slot; cb_cb_flag := cb_flag |}
                 user_data;
      library_foreach_ID_link_fields id callback fields' user_data'
  end.

(** Modelled from the spec: [BKE_library_foreach_ID_link] (lib_query.c is
    missing), the entry point of the Walker: the reference fields of [id]
    under the walk flag, each handed to the callback once. *)
Definition BKE_library_foreach_ID_link (id : ID)
    (callback : LibraryIDLinkCallbackData → MainIDRelations → option (Z * MainIDRelations))
    (user_data : MainIDRelations) (flag : Z) : option MainIDRelations :=
  library_foreach_ID_link_fields id callback (id_reference_fields mem id flag) user_data.

(** main.c, lines 305-315. *)
Definition BKE_main_relations_free (bmain : Main) : Main :=
  match relations bmain with
  | Some _ => {| main_listbases := main_listbases bmain; relations := None |}
  | None => bmain
  end.

(** The body of the [FOREACH_MAIN_ID] loop of [BKE_main_relations_create]
    (lines 285-302), run over the IDs in iteration order. *)
Fixpoint main_relations_create_loop (ids : list ID) (flag_arg : Z)
    (bmain_relations : MainIDRelations) : option MainIDRelations :=
  match ids with
  | [] => Some bmain_relations
  | id :: ids' =>
      let idwalk_flag :=
        Z.lor (IDWALK_READONLY env)
              (if bool_decide (Z.land flag_arg (MAINIDRELATIONS_INCLUDE_UI env) ≠ 0)
               then IDWALK_INCLUDE_UI env else 0) in
      (* Ensure all IDs do have an entry, even if they are not connected to
         any other. *)
      gh ← relations_entry_ensure (relations_from_pointers bmain_relations) id;
      r ← BKE_library_foreach_ID_link id main_relations_create_idlink_cb
            {| relations_from_pointers := gh; flag := flag bmain_relations |}
            idwalk_flag;
      main_relations_create_loop ids' flag_arg r
  end.

(** main.c, lines 270-303. *)
Definition BKE_main_relations_create (bmain : Main) (flag_arg : Z) : option Main :=
  let bmain :=
    match relations bmain with
    | Some _ => BKE_main_relations_free bmain
    | None => bmain
    end in
  r ← main_relations_create_loop (FOREACH_MAIN_ID bmain) flag_arg
        {| relations_from_pointers := ∅; flag := flag_arg |};
  Some {| main_listbases := main_listbases bmain; relations := Some r |}.

End relations.

(** main.c, lines 318-339: [entry->tags |= tag] or [entry->tags &= ~tag] on
    every value of the hash. *)
Definition entry_tag_set (tag : Z) (value : bool)
    (entry : MainIDRelationsEntry) : MainIDRelationsEntry :=
  {| from_ids := from_ids entry; to_ids := to_ids entry;
     session_uuid := session_uuid entry;
     tags := if value then uint (Z.lor (tags entry) tag)
             else uint (Z.land (tags entry) (Z.lnot tag)) |}.

Definition BKE_main_relations_tag_set (bmain : Main) (tag : Z) (value : bool) : Main :=
  match relations bmain with
  | None => bmain
  | Some r =>
      {| main_listbases := main_listbases bmain;
         relations :=
           Some {| relations_from_pointers :=
                     entry_tag_set tag value <$> relations_from_pointers r;
                   flag := flag r |} |}
  end.

(** Modelled from the spec: [lookup(object) -> Relation Entry or absent]
    (main.c has no function for it; readers go through the hash of
    [bmain->relations]). An Index that is not built knows no Object. *)
Definition main_relations_lookup (bmain : Main) (id : ID)
  : option MainIDRelationsEntry :=
  r ← relations bmain; relations_from_pointers r !! id.

(** Modelled from the spec: a [GSet] keyed by ID pointers (BLI_ghash is
    missing) is a set of Object identities; [BLI_gset_new] makes an empty
    one. *)
Definition BLI_gset_new : gset positive := ∅.

(** Modelled from the spec: [BLI_gset_add] (BLI_ghash is missing) makes
    [key] a member of the set. *)
Definition BLI_gset_add (gs : gset positive) (key : ID) : gset positive :=
  {[key]} ∪ gs.

(** main.c, lines 347-359. *)
Definition BKE_main_gset_create (bmain : Main) (gset_arg : option (gset positive))
  : gset positive :=
  let gs0 :=
    match gset_arg with
    | None => BLI_gset_new
    | Some gs => gs
    end in
  foldl BLI_gset_add gs0 (FOREACH_MAIN_ID bmain).

(** ** Reading an Index *)

(** The outgoing ([to_ids]) and incoming ([from_ids]) records of the entry
    stored under [id]; no entry, no records. *)
Definition relations_to_ids (gh : gmap positive MainIDRelationsEntry) (id : ID)
  : list MainIDRelationsEntryItem :=
  match gh !! id with
  | Some entry => to_ids entry
  | None => []
  end.

Definition relations_from_ids (gh : gmap positive MainIDRelationsEntry) (id : ID)
  : list MainIDRelationsEntryItem :=
  match gh !! id with
  | Some entry => from_ids entry
  | None => []
  end.

(** One edge of the Index: the owner of the entry holding the record, the
    direction ([true] for [to_ids]) and the record itself. *)
Definition entry_edges (owner : ID) (entry : MainIDRelationsEntry)
  : list (ID * bool * MainIDRelationsEntryItem) :=
  map (λ item, (owner, true, item)) (to_ids entry) ++
  map (λ item, (owner, false, item)) (from_ids entry).

Definition relations_edges (r : MainIDRelations)
  : list (ID * bool * MainIDRelationsEntryItem) :=
  flat_map (λ '(owner, entry), entry_edges owner entry)
           (map_to_list (relations_from_pointers r)).

Definition main_relations_edges (bmain : Main)
  : list (ID * bool * MainIDRelationsEntryItem) :=
  match relations bmain with
  | Some r => relations_edges r
  | None => []
  end.

Section discovered.
Context (env : Environment) (mem : Memory).

(** Every entry carries the session UUID found at its key. *)
Definition relations_stamps_ok (gh : gmap positive MainIDRelationsEntry) : Prop :=
  ∀ id entry, gh !! id = Some entry → session_uuid entry = id_session_uuid mem id.

(** The walk flag [BKE_main_relations_create] passes to the Walker. *)
Definition main_relations_idwalk_flag (flag_arg : Z) : Z :=
  Z.lor (IDWALK_READONLY env)
        (if bool_decide (Z.land flag_arg (MAINIDRELATIONS_INCLUDE_UI env) ≠ 0)
         then IDWALK_INCLUDE_UI env else 0).

(** The record for a populated field of a user, as stored in [to_ids]. *)
Definition to_item (slot : IDSlot) (target : ID) (cb_flag : Z)
  : MainIDRelationsEntryItem :=
  {| id_pointer := id_pointer_to slot;
     item_session_uuid := id_session_uuid mem target;
     usage_flag := cb_flag |}.

(** The record for a user, as stored in the [from_ids] of what it uses. *)
Definition from_item (id_self : ID) (cb_flag : Z) : MainIDRelationsEntryItem :=
  {| id_pointer := id_pointer_from id_self;
     item_session_uuid := id_session_uuid mem id_self;
     usage_flag := cb_flag |}.

(** One [to_item] per populated field of [fields], in field order. *)
Definition fields_to_items (fields : list (IDSlot * Z))
  : list MainIDRelationsEntryItem :=
  flat_map (λ '(slot, cb_flag),
              match deref mem slot with
              | Some target => [to_item slot target cb_flag]
              | None => []
              end) fields.

(** One [from_item] per field of [fields] that points to [target]. *)
Definition fields_from_items (id_self target : ID) (fields : list (IDSlot * Z))
  : list MainIDRelationsEntryItem :=
  flat_map (λ '(slot, cb_flag),
              match deref mem slot with
              | Some t => if decide (t = target) then [from_item id_self cb_flag] else []
              | None => []
              end) fields.

(** The populated fields met while walking [ids]: those owned by [owner] ... *)
Definition discovered_to_items (ids : list ID) (walk_flag : Z) (owner : ID)
  : list MainIDRelationsEntryItem :=
  flat_map (λ id, if decide (id = owner)
                  then fields_to_items (id_reference_fields mem id walk_flag)
                  else []) ids.

(** ... and those pointing to [target]. *)
Definition discovered_from_items (ids : list ID) (walk_flag : Z) (target : ID)
  : list MainIDRelationsEntryItem :=
  flat_map (λ id, fields_from_items id target (id_reference_fields mem id walk_flag))
           ids.

(** The IDs the populated fields of [fields] point to. *)
Definition fields_targets (fields : list (IDSlot * Z)) : list ID :=
  flat_map (λ '(slot, _),
              match deref mem slot with
              | Some target => [target]
              | None => []
              end) fields.

(** The IDs some populated field met while walking [ids] points to. *)
Definition discovered_targets (ids : list ID) (walk_flag : Z) : list ID :=
  flat_map (λ id, fields_targets (id_reference_fields mem id walk_flag)) ids.

End discovered.

(** ** A small Registry: A (one reference field, null) and B (one reference
    field, pointing to A) *)

Definition sample_env : Environment :=
  {| BLI_assert_enabled := true;
     MAIN_ID_SESSION_UUID_UNSET := 0;
     IDWALK_RET_NOP := 0;
     IDWALK_READONLY := 1;
     IDWALK_INCLUDE_UI := 4;
     MAINIDRELATIONS_INCLUDE_UI := 1 |}.

Definition id_A : ID := 1%positive.
Definition id_B : ID := 2%positive.
Definition slot_A_next : IDSlot := 10%positive.
Definition slot_B_next : IDSlot := 20%positive.

Definition sample_mem : Memory :=
  {| id_session_uuid := λ id, Z.pos id + 100;
     deref := λ slot, if decide (slot = slot_B_next) then Some id_A else None;
     id_reference_fields := λ id _,
       if decide (id = id_A) then [(slot_A_next, 0)]
       else if decide (id = id_B) then [(slot_B_next, 0)]
       else [] |}.

Definition sample_main : Main :=
  {| main_listbases := [[id_A; id_B]]; relations := None |}.

(** An Index holding one entry whose tag word already has bit 0 set. *)
Definition tagged_main : Main :=
  {| main_listbases := [[id_A]];
     relations :=
       Some {| relations_from_pointers :=
                 {[ id_A := {| from_ids := []; to_ids := [];
                               session_uuid := 101; tags := 1 |} ]};
               flag := 0 |} |}.

(** ** The geometry data source of the spreadsheet editor
    (spreadsheet_data_source_geometry.cc) *)

(** [CustomDataType]: the six enumerators [get_column_values] names, and the
    remaining ones by their enumeration value. *)
Inductive CustomDataType :=
  | CD_PROP_FLOAT
  | CD_PROP_INT32
  | CD_PROP_BOOL
  | CD_PROP_FLOAT2
  | CD_PROP_FLOAT3
  | CD_PROP_COLOR
  | CD_OTHER (code : Z).

Inductive eSpreadsheetColumnValueType :=
  | SPREADSHEET_VALUE_TYPE_FLOAT
  | SPREADSHEET_VALUE_TYPE_INT32
  | SPREADSHEET_VALUE_TYPE_BOOL
  | SPREADSHEET_VALUE_TYPE_FLOAT2
  | SPREADSHEET_VALUE_TYPE_FLOAT3
  | SPREADSHEET_VALUE_TYPE_COLOR.

(** [SpreadsheetColumnID]. *)
Record SpreadsheetColumnID := { name : string }.

(** The attribute layer is declared in other headers: [CPPType] is the
    run-time type of a virtual array, [GenericValue] what [varray->get]
    copies out of it, and [cpp_type_to_custom_data_type],
    [column_values_from_function] and the column widths are the helpers and
    constants [get_column_values] calls. *)
Section spreadsheet.
Context {CPPType GenericValue ColumnWidth ColumnValues : Type}.

(** [fn::GVArray], through [size()], [type()] and [get()]. *)
Record GVArray := {
  varray_size : Z;
  varray_type : CPPType;
  varray_get : Z → GenericValue
}.

(** [bke::ReadAttributeLookup]; it converts to [false] when [varray] is null. *)
Record ReadAttributeLookup := {
  varray : option GVArray;
  domain : Z
}.

(** [CellValue], as the lambdas of [get_column_values] fill it: the field
    assigned, with the value read from the array. *)
Inductive CellValue :=
  | value_float (value : GenericValue)
  | value_int (value : GenericValue)
  | value_bool (value : GenericValue)
  | value_float2 (value : GenericValue)
  | value_float3 (value : GenericValue)
  | value_color (value : GenericValue).

(** [GeometryComponent], through [attribute_try_get_for_read]. *)
Record GeometryComponent := {
  attribute_try_get_for_read : string → ReadAttributeLookup
}.

(** [GeometryDataSource]; [mutex_] guards the call and [scope_] keeps the
    array alive, neither takes part in the result. *)
Record GeometryDataSource := {
  component_ : GeometryComponent;
  domain_ : Z
}.

Context (cpp_type_to_custom_data_type : CPPType → CustomDataType).
Context (column_values_from_function :
           eSpreadsheetColumnValueType → string → Z → (Z → CellValue) →
           option ColumnWidth → option ColumnValues).
Context (default_float2_column_width default_float3_column_width
         default_color_column_width : ColumnWidth).

(** spreadsheet_data_source_geometry.cc, lines 59-142. A null
    [std::unique_ptr] is [None]; the last argument of
    [column_values_from_function] is [None] where the call leaves it out. *)
Definition get_column_values (self : GeometryDataSource)
    (column_id : SpreadsheetColumnID) : option ColumnValues :=
  let attribute := attribute_try_get_for_read (component_ self) (name column_id) in
  match varray attribute with
  | None => None
  | Some varray =>
      if bool_decide (domain attribute ≠ domain_ self) then None
      else
        let domain_size := varray_size varray in
        let type := cpp_type_to_custom_data_type (varray_type varray) in
        match type with
        | CD_PROP_FLOAT =>
            column_values_from_function SPREADSHEET_VALUE_TYPE_FLOAT
              (name column_id) domain_size
              (λ index, value_float (varray_get varray index)) None
        | CD_PROP_INT32 =>
            column_values_from_function SPREADSHEET_VALUE_TYPE_INT32
              (name column_id) domain_size
              (λ index, value_int (varray_get varray index)) None
        | CD_PROP_BOOL =>
            column_values_from_function SPREADSHEET_VALUE_TYPE_BOOL
              (name column_id) domain_size
              (λ index, value_bool (varray_get varray index)) None
        | CD_PROP_FLOAT2 =>
            column_values_from_function SPREADSHEET_VALUE_TYPE_FLOAT2
              (name column_id) domain_size
              (λ index, value_float2 (varray_get varray index))
              (Some default_float2_column_width)
        | CD_PROP_FLOAT3 =>
            column_values_from_function SPREADSHEET_VALUE_TYPE_FLOAT3
              (name column_id) domain_size
              (λ index, value_float3 (varray_get varray index))
              (Some default_float3_column_width)
        | CD_PROP_COLOR =>
            column_values_from_function SPREADSHEET_VALUE_TYPE_COLOR
              (name column_id) domain_size
              (λ index, value_color (varray_get varray index))
              (Some default_color_column_width)
        | CD_OTHER _ => None
        end
  end.

End spreadsheet.

(** The value types [get_column_values] has a column for. *)
Definition displayable_types : list CustomDataType :=
  [CD_PROP_FLOAT; CD_PROP_INT32; CD_PROP_BOOL;
   CD_PROP_FLOAT2; CD_PROP_FLOAT3; CD_PROP_COLOR].

(** A point-domain data source over a component with a float attribute
    "radius" on domain 0, an attribute "crease" on domain 1, and an attribute
    "label" of a type without a column. *)
Definition sample_component : @GeometryComponent CustomDataType Z :=
  {| attribute_try_get_for_read := λ attribute_name,
       if String.eqb attribute_name "radius"
       then {| varray := Some {| varray_size := 3; varray_type := CD_PROP_FLOAT;
                                 varray_get := λ index, index |};
               domain := 0 |}
       else if String.eqb attribute_name "crease"
       then {| varray := Some {| varray_size := 2; varray_type := CD_PROP_FLOAT;
                                 varray_get := λ index, index |};
               domain := 1 |}
       else if String.eqb attribute_name "label"
       then {| varray := Some {| varray_size := 3; varray_type := CD_OTHER 12;
                                 varray_get := λ index, index |};
               domain := 0 |}
       else {| varray := None; domain := 0 |} |}.

Definition sample_data_source : @GeometryDataSource CustomDataType Z :=
  {| component_ := sample_component; domain_ := 0 |}.

(** A stand-in for [column_values_from_function] that keeps the column's
    type, name and size. *)
Definition sample_column_values_from_function
    (type : eSpreadsheetColumnValueType) (column_name : string) (size : Z)
    (get_value : Z → @CellValue Z) (default_width : option Z)
  : option (eSpreadsheetColumnValueType * string * Z) :=
  Some (type, column_name, size).

Definition sample_get_column_values (column_name : string)
  : option (eSpreadsheetColumnValueType * string * Z) :=
  get_column_values (λ type, type) sample_column_values_from_function 2 3 4
    sample_data_source {| name := column_name |}.

(** ** The selection filter of the geometry data source
    (spreadsheet_data_source_geometry.cc, lines 149-289) *)

(** [MLoop], [MEdge] and [MPoly], with the fields the filter reads. *)
Record MLoop := { MLoop_v : Z }.
Record MEdge := { MEdge_v1 : Z; MEdge_v2 : Z }.
Record MPoly := { MPoly_loopstart : Z; MPoly_totloop : Z }.

(** [Mesh], with the element counts and arrays the filter reads; an array is
    the function from an index to the element stored there.
    [vdata_CD_ORIGINDEX] is what
    [CustomData_get_layer(&mesh->vdata, CD_ORIGINDEX)] returns. *)
Record Mesh := {
  totvert : Z;
  totedge : Z;
  totpoly : Z;
  totloop : Z;
  mloop : Z → MLoop;
  medge : Z → MEdge;
  mpoly : Z → MPoly;
  vdata_CD_ORIGINDEX : option (Z → Z)
}.

(** [BMesh]: the vertex count and, for the vertex table,
    [BM_elem_flag_test(bm->vtable[i], BM_ELEM_SELECT)]. *)
Record BMesh := {
  bm_totvert : Z;
  bm_vtable_select : Z → bool
}.

(** [IndexRange(start, size)], in iteration order. *)
Definition IndexRange (start size : Z) : list Z := seqZ start size.

Section selection.
Context (is_vertex_selected_fn : Z → bool).

(** Lines 151-163. [selection] is the [MutableSpan<bool>]; indexing it
    outside its size has no defined result ([None]). *)
Fixpoint get_selected_vertex_indices_loop (indices : list Z) (selection : list bool)
  : option (list bool) :=
  match indices with
  | [] => Some selection
  | i :: indices' =>
      selected ← selection !! Z.to_nat i;
      if negb selected then get_selected_vertex_indices_loop indices' selection
      else if negb (is_vertex_selected_fn i)
           then get_selected_vertex_indices_loop indices'
                  (<[Z.to_nat i := false]> selection)
           else get_selected_vertex_indices_loop indices' selection
  end.

Definition get_selected_vertex_indices (mesh : Mesh) (selection : list bool)
  : option (list bool) :=
  get_selected_vertex_indices_loop (IndexRange 0 (totvert mesh)) selection.

(** Lines 165-178. *)
Fixpoint get_selected_corner_indices_loop (mesh : Mesh) (indices : list Z)
    (selection : list bool) : option (list bool) :=
  match indices with
  | [] => Some selection
  | i :: indices' =>
      let loop := mloop mesh i in
      selected ← selection !! Z.to_nat i;
      if negb selected then get_selected_corner_indices_loop mesh indices' selection
      else if negb (is_vertex_selected_fn (MLoop_v loop))
           then get_selected_corner_indices_loop mesh indices'
                  (<[Z.to_nat i := false]> selection)
           else get_selected_corner_indices_loop mesh indices' selection
  end.

Definition get_selected_corner_indices (mesh : Mesh) (selection : list bool)
  : option (list bool) :=
  get_selected_corner_indices_loop mesh (IndexRange 0 (totloop mesh)) selection.

(** The inner loop of lines 189-195: [true] when it reaches the [break],
    that is when a corner of the face has a vertex that is not selected. *)
Fixpoint face_has_unselected_vertex (mesh : Mesh) (loop_indices : list Z) : bool :=
  match loop_indices with
  | [] => false
  | loop_index :: loop_indices' =>
      let loop := mloop mesh loop_index in
      if negb (is_vertex_selected_fn (MLoop_v loop)) then true
      else face_has_unselected_vertex mesh loop_indices'
  end.

(** Lines 180-197. *)
Fixpoint get_selected_face_indices_loop (mesh : Mesh) (indices : list Z)
    (selection : list bool) : option (list bool) :=
  match indices with
  | [] => Some selection
  | poly_index :: indices' =>
      selected ← selection !! Z.to_nat poly_index;
      if negb selected then get_selected_face_indices_loop mesh indices' selection
      else
        let poly := mpoly mesh poly_index in
        if face_has_unselected_vertex mesh
             (IndexRange (MPoly_loopstart poly) (MPoly_totloop poly))
        then get_selected_face_indices_loop mesh indices'
               (<[Z.to_nat poly_index := false]> selection)
        else get_selected_face_indices_loop mesh indices' selection
  end.

Definition get_selected_face_indices (mesh : Mesh) (selection : list bool)
  : option (list bool) :=
  get_selected_face_indices_loop mesh (IndexRange 0 (totpoly mesh)) selection.

(** Lines 199-212. *)
Fixpoint get_selected_edge_indices_loop (mesh : Mesh) (indices : list Z)
    (selection : list bool) : option (list bool) :=
  match indices with
  | [] => Some selection
  | i :: indices' =>
      selected ← selection !! Z.to_nat i;
      if negb selected then get_selected_edge_indices_loop mesh indices' selection
      else
        let edge := medge mesh i in
        if negb (is_vertex_selected_fn (MEdge_v1 edge))
           || negb (is_vertex_selected_fn (MEdge_v2 edge))
        then get_selected_edge_indices_loop mesh indices'
               (<[Z.to_nat i := false]> selection)
        else get_selected_edge_indices_loop mesh indices' selection
  end.

Definition get_selected_edge_indices (mesh : Mesh) (selection : list bool)
  : option (list bool) :=
  get_selected_edge_indices_loop mesh (IndexRange 0 (totedge mesh)) selection.

(** The enumerators of [AttributeDomain] the switch of lines 219-230 names. *)
Context (ATTR_DOMAIN_POINT ATTR_DOMAIN_FACE ATTR_DOMAIN_CORNER ATTR_DOMAIN_EDGE : Z).

(** Lines 214-231. *)
Definition get_selected_indices_on_domain (mesh : Mesh) (domain : Z)
    (selection : list bool) : option (list bool) :=
  if bool_decide (domain = ATTR_DOMAIN_POINT)
  then get_selected_vertex_indices mesh selection
  else if bool_decide (domain = ATTR_DOMAIN_FACE)
  then get_selected_face_indices mesh selection
  else if bool_decide (domain = ATTR_DOMAIN_CORNER)
  then get_selected_corner_indices mesh selection
  else if bool_decide (domain = ATTR_DOMAIN_EDGE)
  then get_selected_edge_indices mesh selection
  else Some selection.

End selection.

(** The two lambdas of [apply_selection_filter]: through the [CD_ORIGINDEX]
    layer (lines 268-278), and by position (lines 283-286). *)
Definition is_vertex_selected_by_origindex (orig_indices : Z → Z) (bm : BMesh)
    (vertex_index : Z) : bool :=
  let i_orig := orig_indices vertex_index in
  if bool_decide (i_orig < 0) then false
  else if bool_decide (i_orig >= bm_totvert bm)%Z then false
  else bm_vtable_select bm i_orig.

Definition is_vertex_selected_by_position (bm : BMesh) (vertex_index : Z) : bool :=
  bm_vtable_select bm vertex_index.

(** Lines 252-289. The method reads [object_eval_->mode], [component_->type()],
    the evaluated mesh of the component, the edit mesh [bm] of the original
    object and [domain_]; they are its arguments here, with the constants
    the two assertions compare with. *)
Definition apply_selection_filter (env : Environment)
    (ATTR_DOMAIN_POINT ATTR_DOMAIN_FACE ATTR_DOMAIN_CORNER ATTR_DOMAIN_EDGE : Z)
    (OB_MODE_EDIT GEO_COMPONENT_TYPE_MESH : Z)
    (object_eval_mode component_type : Z) (mesh_eval : Mesh) (bm : BMesh)
    (domain_ : Z) (rows_included : list bool) : option (list bool) :=
  _ ← BLI_assert env (bool_decide (object_eval_mode = OB_MODE_EDIT));
  _ ← BLI_assert env (bool_decide (component_type = GEO_COMPONENT_TYPE_MESH));
  match vdata_CD_ORIGINDEX mesh_eval with
  | Some orig_indices =>
      (* Use CD_ORIGINDEX layer if it exists. *)
      get_selected_indices_on_domain (is_vertex_selected_by_origindex orig_indices bm)
        ATTR_DOMAIN_POINT ATTR_DOMAIN_FACE ATTR_DOMAIN_CORNER ATTR_DOMAIN_EDGE
        mesh_eval domain_ rows_included
  | None =>
      if bool_decide (totvert mesh_eval = bm_totvert bm)
      then
        (* Use a simple heuristic to match original vertices to evaluated ones. *)
        get_selected_indices_on_domain (is_vertex_selected_by_position bm)
          ATTR_DOMAIN_POINT ATTR_DOMAIN_FACE ATTR_DOMAIN_CORNER ATTR_DOMAIN_EDGE
          mesh_eval domain_ rows_included
      else Some rows_included
  end.

(** What the loops compute, for reference: of the first [count] rows those
    that fail [keep] are switched off. *)
Definition selection_filtered (keep : Z → bool) (count : Z) (selection : list bool)
  : list bool :=
  imap (λ k included,
          if decide (Z.of_nat k < count) then included && keep (Z.of_nat k)
          else included) selection.

(** The shape the four loops share. *)
Fixpoint selection_filter_loop (keep : Z → bool) (indices : list Z)
    (selection : list bool) : option (list bool) :=
  match indices with
  | [] => Some selection
  | i :: indices' =>
      selected ← selection !! Z.to_nat i;
      if selected && negb (keep i)
      then selection_filter_loop keep indices' (<[Z.to_nat i := false]> selection)
      else selection_filter_loop keep indices' selection
  end.

(** The rows each filter keeps, by index. *)
Definition corner_kept (is_vertex_selected_fn : Z → bool) (mesh : Mesh) (i : Z) : bool :=
  is_vertex_selected_fn (MLoop_v (mloop mesh i)).

Definition edge_kept (is_vertex_selected_fn : Z → bool) (mesh : Mesh) (i : Z) : bool :=
  is_vertex_selected_fn (MEdge_v1 (medge mesh i))
  && is_vertex_selected_fn (MEdge_v2 (medge mesh i)).

Definition face_kept (is_vertex_selected_fn : Z → bool) (mesh : Mesh) (poly_index : Z)
  : bool :=
  forallb (λ loop_index, is_vertex_selected_fn (MLoop_v (mloop mesh loop_index)))
    (seqZ (MPoly_loopstart (mpoly mesh poly_index))
          (MPoly_totloop (mpoly mesh poly_index))).

(** What [get_selected_indices_on_domain] keeps and how many rows it
    visits, by domain. *)
Definition domain_kept (is_vertex_selected_fn : Z → bool)
    (ATTR_DOMAIN_POINT ATTR_DOMAIN_FACE ATTR_DOMAIN_CORNER ATTR_DOMAIN_EDGE : Z)
    (mesh : Mesh) (domain : Z) : (Z → bool) * Z :=
  if bool_decide (domain = ATTR_DOMAIN_POINT)
  then (is_vertex_selected_fn, totvert mesh)
  else if bool_decide (domain = ATTR_DOMAIN_FACE)
  then (face_kept is_vertex_selected_fn mesh, totpoly mesh)
  else if bool_decide (domain = ATTR_DOMAIN_CORNER)
  then (corner_kept is_vertex_selected_fn mesh, totloop mesh)
  else if bool_decide (domain = ATTR_DOMAIN_EDGE)
  then (edge_kept is_vertex_selected_fn mesh, totedge mesh)
  else (λ _, true, 0).

(** A mesh to try the filter on: one triangle over the vertices 0, 1, 2 and
    a loose vertex 3 that has no original vertex; in the edit mesh the
    vertices 0 and 1 are selected. *)
Definition sample_mesh : Mesh :=
  {| totvert := 4; totedge := 3; totpoly := 1; totloop := 3;
     mloop := λ i, {| MLoop_v := i |};
     medge := λ i, {| MEdge_v1 := i; MEdge_v2 := (i + 1) mod 3 |};
     mpoly := λ _, {| MPoly_loopstart := 0; MPoly_totloop := 3 |};
     vdata_CD_ORIGINDEX := Some (λ i, if bool_decide (i = 3) then -1 else i) |}.

Definition sample_bm : BMesh :=
  {| bm_totvert := 3; bm_vtable_select := λ i, bool_decide (i = 0 ∨ i = 1) |}.

(** ** The list-bases of [Main] (main.c, lines 446-613) *)

(** The [ListBase] members of [Main] the two functions below take the
    address of; [&(bmain->scenes)] is [MainListBase.scenes]. *)
Module MainListBase.
Inductive t :=
  | scenes | libraries | objects | meshes | curves | metaballs | materials
  | textures | images | lattices | lights | cameras | ipo | shapekeys | worlds
  | screens | fonts | texts | speakers | lightprobes | sounds | collections
  | armatures | actions | nodetrees | brushes | particles | wm | gpencils
  | movieclips | masks | linestyles | palettes | paintcurves | cachefiles
  | workspaces | hairs | pointclouds | volumes | simulations.
End MainListBase.

(** [ID_Type]: the enumerators the switch of [which_libbase] names; any
    other value of the [short] is [ID_TYPE_OTHER]. *)
Inductive ID_Type :=
  | ID_SCE | ID_LI | ID_OB | ID_ME | ID_CU | ID_MB | ID_MA | ID_TE | ID_IM
  | ID_LT | ID_LA | ID_CA | ID_IP | ID_KE | ID_WO | ID_SCR | ID_VF | ID_TXT
  | ID_SPK | ID_LP | ID_SO | ID_GR | ID_AR | ID_AC | ID_NT | ID_BR | ID_PA
  | ID_WM | ID_GD | ID_MC | ID_MSK | ID_LS | ID_PAL | ID_PC | ID_CF | ID_WS
  | ID_HA | ID_PT | ID_VO | ID_SIM
  | ID_TYPE_OTHER (type : Z).

(** The positions of the array [set_listbasepointers] fills, by the names of
    the [INDEX_ID_...] enumerators. *)
Inductive INDEX_ID :=
  | INDEX_ID_LI | INDEX_ID_IP | INDEX_ID_AC | INDEX_ID_KE | INDEX_ID_PAL
  | INDEX_ID_GD | INDEX_ID_NT | INDEX_ID_IM | INDEX_ID_TE | INDEX_ID_MA
  | INDEX_ID_VF | INDEX_ID_AR | INDEX_ID_CF | INDEX_ID_ME | INDEX_ID_CU
  | INDEX_ID_MB | INDEX_ID_HA | INDEX_ID_PT | INDEX_ID_VO | INDEX_ID_LT
  | INDEX_ID_LA | INDEX_ID_CA | INDEX_ID_TXT | INDEX_ID_SO | INDEX_ID_GR
  | INDEX_ID_PC | INDEX_ID_BR | INDEX_ID_PA | INDEX_ID_SPK | INDEX_ID_LP
  | INDEX_ID_WO | INDEX_ID_MC | INDEX_ID_SCR | INDEX_ID_OB | INDEX_ID_LS
  | INDEX_ID_SCE | INDEX_ID_WS | INDEX_ID_WM | INDEX_ID_MSK | INDEX_ID_SIM
  | INDEX_ID_NULL.

#[global] Instance INDEX_ID_eq_dec : EqDecision INDEX_ID.
Proof. solve_decision. Defined.

#[global] Instance MainListBase_eq_dec : EqDecision MainListBase.t.
Proof. solve_decision. Defined.

(** main.c, lines 449-534. A null result is [None]. *)
Definition which_libbase (type : ID_Type) : option MainListBase.t :=
  match type with
  | ID_SCE => Some MainListBase.scenes
  | ID_LI => Some MainListBase.libraries
  | ID_OB => Some MainListBase.objects
  | ID_ME => Some MainListBase.meshes
  | ID_CU => Some MainListBase.curves
  | ID_MB => Some MainListBase.metaballs
  | ID_MA => Some MainListBase.materials
  | ID_TE => Some MainListBase.textures
  | ID_IM => Some MainListBase.images
  | ID_LT => Some MainListBase.lattices
  | ID_LA => Some MainListBase.lights
  | ID_CA => Some MainListBase.cameras
  | ID_IP => Some MainListBase.ipo
  | ID_KE => Some MainListBase.shapekeys
  | ID_WO => Some MainListBase.worlds
  | ID_SCR => Some MainListBase.screens
  | ID_VF => Some MainListBase.fonts
  | ID_TXT => Some MainListBase.texts
  | ID_SPK => Some MainListBase.speakers
  | ID_LP => Some MainListBase.lightprobes
  | ID_SO => Some MainListBase.sounds
  | ID_GR => Some MainListBase.collections
  | ID_AR => Some MainListBase.armatures
  | ID_AC => Some MainListBase.actions
  | ID_NT => Some MainListBase.nodetrees
  | ID_BR => Some MainListBase.brushes
  | ID_PA => Some MainListBase.particles
  | ID_WM => Some MainListBase.wm
  | ID_GD => Some MainListBase.gpencils
  | ID_MC => Some MainListBase.movieclips
  | ID_MSK => Some MainListBase.masks
  | ID_LS => Some MainListBase.linestyles
  | ID_PAL => Some MainListBase.palettes
  | ID_PC => Some MainListBase.paintcurves
  | ID_CF => Some MainListBase.cachefiles
  | ID_WS => Some MainListBase.workspaces
  | ID_HA => Some MainListBase.hairs
  | ID_PT => Some MainListBase.pointclouds
  | ID_VO => Some MainListBase.volumes
  | ID_SIM => Some MainListBase.simulations
  | ID_TYPE_OTHER _ => None
  end.

(** [lb[index] = value] on the array of list-base pointers. *)
Definition lb_set (index : INDEX_ID) (value : option MainListBase.t)
    (lb : INDEX_ID → option MainListBase.t) : INDEX_ID → option MainListBase.t :=
  λ i, if decide (i = index) then value else lb i.

(** main.c, lines 548-613: the array after the assignments, taken in the
    order of the source, and the count returned. [INDEX_ID_MAX] comes from
    DNA_ID.h. *)
Definition set_listbasepointers (INDEX_ID_MAX : Z)
    (lb : INDEX_ID → option MainListBase.t)
  : (INDEX_ID → option MainListBase.t) * Z :=
  let lb := lb_set INDEX_ID_LI (Some MainListBase.libraries) lb in
  let lb := lb_set INDEX_ID_IP (Some MainListBase.ipo) lb in
  let lb := lb_set INDEX_ID_AC (Some MainListBase.actions) lb in
  let lb := lb_set INDEX_ID_KE (Some MainListBase.shapekeys) lb in
  let lb := lb_set INDEX_ID_PAL (Some MainListBase.palettes) lb in
  let lb := lb_set INDEX_ID_GD (Some MainListBase.gpencils) lb in
  let lb := lb_set INDEX_ID_NT (Some MainListBase.nodetrees) lb in
  let lb := lb_set INDEX_ID_IM (Some MainListBase.images) lb in
  let lb := lb_set INDEX_ID_TE (Some MainListBase.textures) lb in
  let lb := lb_set INDEX_ID_MA (Some MainListBase.materials) lb in
  let lb := lb_set INDEX_ID_VF (Some MainListBase.fonts) lb in
  let lb := lb_set INDEX_ID_AR (Some MainListBase.armatures) lb in
  let lb := lb_set INDEX_ID_CF (Some MainListBase.cachefiles) lb in
  let lb := lb_set INDEX_ID_ME (Some MainListBase.meshes) lb in
  let lb := lb_set INDEX_ID_CU (Some MainListBase.curves) lb in
  let lb := lb_set INDEX_ID_MB (Some MainListBase.metaballs) lb in
  let lb := lb_set INDEX_ID_HA (Some MainListBase.hairs) lb in
  let lb := lb_set INDEX_ID_PT (Some MainListBase.pointclouds) lb in
  let lb := lb_set INDEX_ID_VO (Some MainListBase.volumes) lb in
  let lb := lb_set INDEX_ID_LT (Some MainListBase.lattices) lb in
  let lb := lb_set INDEX_ID_LA (Some MainListBase.lights) lb in
  let lb := lb_set INDEX_ID_CA (Some MainListBase.cameras) lb in
  let lb := lb_set INDEX_ID_TXT (Some MainListBase.texts) lb in
  let lb := lb_set INDEX_ID_SO (Some MainListBase.sounds) lb in
  let lb := lb_set INDEX_ID_GR (Some MainListBase.collections) lb in
  let lb := lb_set INDEX_ID_PAL (Some MainListBase.palettes) lb in
  let lb := lb_set INDEX_ID_PC (Some MainListBase.paintcurves) lb in
  let lb := lb_set INDEX_ID_BR (Some MainListBase.brushes) lb in
  let lb := lb_set INDEX_ID_PA (Some MainListBase.particles) lb in
  let lb := lb_set INDEX_ID_SPK (Some MainListBase.speakers) lb in
  let lb := lb_set INDEX_ID_LP (Some MainListBase.lightprobes) lb in
  let lb := lb_set INDEX_ID_WO (Some MainListBase.worlds) lb in
  let lb := lb_set INDEX_ID_MC (Some MainListBase.movieclips) lb in
  let lb := lb_set INDEX_ID_SCR (Some MainListBase.screens) lb in
  let lb := lb_set INDEX_ID_OB (Some MainListBase.objects) lb in
  let lb := lb_set INDEX_ID_LS (Some MainListBase.linestyles) lb in
  let lb := lb_set INDEX_ID_SCE (Some MainListBase.scenes) lb in
  let lb := lb_set INDEX_ID_WS (Some MainListBase.workspaces) lb in
  let lb := lb_set INDEX_ID_WM (Some MainListBase.wm) lb in
  let lb := lb_set INDEX_ID_MSK (Some MainListBase.masks) lb in
  let lb := lb_set INDEX_ID_SIM (Some MainListBase.simulations) lb in
  let lb := lb_set INDEX_ID_NULL None lb in
  (lb, INDEX_ID_MAX - 1).

(** Search of a position of the array, or of an ID type, by trying each. *)
Ltac find_INDEX_ID :=
  first [ exists INDEX_ID_LI; vm_compute; reflexivity
        | exists INDEX_ID_IP; vm_compute; reflexivity
        | exists INDEX_ID_AC; vm_compute; reflexivity
        | exists INDEX_ID_KE; vm_compute; reflexivity
        | exists INDEX_ID_PAL; vm_compute; reflexivity
        | exists INDEX_ID_GD; vm_compute; reflexivity
        | exists INDEX_ID_NT; vm_compute; reflexivity
        | exists INDEX_ID_IM; vm_compute; reflexivity
        | exists INDEX_ID_TE; vm_compute; reflexivity
        | exists INDEX_ID_MA; vm_compute; reflexivity
        | exists INDEX_ID_VF; vm_compute; reflexivity
        | exists INDEX_ID_AR; vm_compute; reflexivity
        | exists INDEX_ID_CF; vm_compute; reflexivity
        | exists INDEX_ID_ME; vm_compute; reflexivity
        | exists INDEX_ID_CU; vm_compute; reflexivity
        | exists INDEX_ID_MB; vm_compute; reflexivity
        | exists INDEX_ID_HA; vm_compute; reflexivity
        | exists INDEX_ID_PT; vm_compute; reflexivity
        | exists INDEX_ID_VO; vm_compute; reflexivity
        | exists INDEX_ID_LT; vm_compute; reflexivity
        | exists INDEX_ID_LA; vm_compute; reflexivity
        | exists INDEX_ID_CA; vm_compute; reflexivity
        | exists INDEX_ID_TXT; vm_compute; reflexivity
        | exists INDEX_ID_SO; vm_compute; reflexivity
        | exists INDEX_ID_GR; vm_compute; reflexivity
        | exists INDEX_ID_PC; vm_compute; reflexivity
        | exists INDEX_ID_BR; vm_compute; reflexivity
        | exists INDEX_ID_PA; vm_compute; reflexivity
        | exists INDEX_ID_SPK; vm_compute; reflexivity
        | exists INDEX_ID_LP; vm_compute; reflexivity
        | exists INDEX_ID_WO; vm_compute; reflexivity
        | exists INDEX_ID_MC; vm_compute; reflexivity
        | exists INDEX_ID_SCR; vm_compute; reflexivity
        | exists INDEX_ID_OB; vm_compute; reflexivity
        | exists INDEX_ID_LS; vm_compute; reflexivity
        | exists INDEX_ID_SCE; vm_compute; reflexivity
        | exists INDEX_ID_WS; vm_compute; reflexivity
        | exists INDEX_ID_WM; vm_compute; reflexivity
        | exists INDEX_ID_MSK; vm_compute; reflexivity
        | exists INDEX_ID_SIM; vm_compute; reflexivity ].

Ltac find_ID_Type :=
  first [ exists ID_SCE; reflexivity | exists ID_LI; reflexivity
        | exists ID_OB; reflexivity | exists ID_ME; reflexivity
        | exists ID_CU; reflexivity | exists ID_MB; reflexivity
        | exists ID_MA; reflexivity | exists ID_TE; reflexivity
        | exists ID_IM; reflexivity | exists ID_LT; reflexivity
        | exists ID_LA; reflexivity | exists ID_CA; reflexivity
        | exists ID_IP; reflexivity | exists ID_KE; reflexivity
        | exists ID_WO; reflexivity | exists ID_SCR; reflexivity
        | exists ID_VF; reflexivity | exists ID_TXT; reflexivity
        | exists ID_SPK; reflexivity | exists ID_LP; reflexivity
        | exists ID_SO; reflexivity | exists ID_GR; reflexivity
        | exists ID_AR; reflexivity | exists ID_AC; reflexivity
        | exists ID_NT; reflexivity | exists ID_BR; reflexivity
        | exists ID_PA; reflexivity | exists ID_WM; reflexivity
        | exists ID_GD; reflexivity | exists ID_MC; reflexivity
        | exists ID_MSK; reflexivity | exists ID_LS; reflexivity
        | exists ID_PAL; reflexivity | exists ID_PC; reflexivity
        | exists ID_CF; reflexivity | exists ID_WS; reflexivity
        | exists ID_HA; reflexivity | exists ID_PT; reflexivity
        | exists ID_VO; reflexivity | exists ID_SIM; reflexivity ].

(** ** The instances data source
    (spreadsheet_data_source_geometry.cc, lines 291-395) *)

Module InstancesDataSource.

(** [InstanceReference], by its [type()] with what the accessor of that
    type returns. *)
Inductive InstanceReference :=
  | Type_Object (object : positive)
  | Type_Collection (collection : positive)
  | Type_GeometrySet (geometry_set : positive)
  | Type_None.

(** The value types [get_column_values] of this class names. *)
Inductive ColumnValueType :=
  | SPREADSHEET_VALUE_TYPE_INSTANCES
  | SPREADSHEET_VALUE_TYPE_FLOAT3
  | SPREADSHEET_VALUE_TYPE_INT32.

Section instances.
Context {float4x4 float3 ColumnWidth ColumnValues : Type}.

(** [InstancesComponent], through the accessors the class calls; a span is
    the function from an index to its element. *)
Record InstancesComponent := {
  instances_amount : Z;
  instance_reference_handles : Z → Z;
  references : Z → InstanceReference;
  instance_transforms : Z → float4x4;
  instance_ids : Z → Z
}.

(** [CellValue], as the lambdas of this class fill it: the field assigned. *)
Inductive CellValue :=
  | value_object (object : positive)
  | value_collection (collection : positive)
  | value_geometry_set (geometry_set : positive)
  | value_float3 (value : float3)
  | value_int (value : Z).

(** The methods of [float4x4], the helper that builds a column, the write
    to [values->default_width], and the widths: the two literals [8.0f] and
    [5.5f] and the constant [default_float3_column_width]. *)
Context (translation to_euler scale : float4x4 → float3).
Context (column_values_from_function :
           ColumnValueType → string → Z → (Z → option CellValue → option CellValue) →
           option ColumnWidth → ColumnValues).
Context (set_default_width : ColumnValues → ColumnWidth → ColumnValues).
Context (width_8_0f width_5_5f default_float3_column_width : ColumnWidth).

(** Lines 392-395. *)
Definition tot_rows (component_ : InstancesComponent) : Z :=
  instances_amount component_.

(** Lines 291-305: the column ids handed to [fn], in the order of the
    calls. *)
Definition foreach_default_column_ids (component_ : InstancesComponent)
  : list SpreadsheetColumnID :=
  if bool_decide (instances_amount component_ = 0) then []
  else
    {| name := "Name" |}
    :: map (λ column_name, {| name := column_name |})
         ["Position"; "Rotation"; "Scale"; "ID"]%string.

(** Lines 307-390. A lambda gets the cell by reference: it maps the cell it
    is given ([None] while no field is assigned) to the cell it leaves. *)
Definition get_column_values (component_ : InstancesComponent)
    (column_id : SpreadsheetColumnID) : option ColumnValues :=
  if bool_decide (instances_amount component_ = 0) then None
  else
    let size := tot_rows component_ in
    if String.eqb (name column_id) "Name" then
      let reference_handles := instance_reference_handles component_ in
      let references := references component_ in
      let values :=
        column_values_from_function SPREADSHEET_VALUE_TYPE_INSTANCES "Name" size
          (λ index r_cell_value,
             match references (reference_handles index) with
             | Type_Object object => Some (value_object object)
             | Type_Collection collection => Some (value_collection collection)
             | Type_GeometrySet geometry_set => Some (value_geometry_set geometry_set)
             | Type_None => r_cell_value
             end)
          None in
      Some (set_default_width values width_8_0f)
    else
      let transforms := instance_transforms component_ in
      if String.eqb (name column_id) "Position" then
        Some (column_values_from_function SPREADSHEET_VALUE_TYPE_FLOAT3
                (name column_id) size
                (λ index _, Some (value_float3 (translation (transforms index))))
                (Some default_float3_column_width))
      else if String.eqb (name column_id) "Rotation" then
        Some (column_values_from_function SPREADSHEET_VALUE_TYPE_FLOAT3
                (name column_id) size
                (λ index _, Some (value_float3 (to_euler (transforms index))))
                (Some default_float3_column_width))
      else if String.eqb (name column_id) "Scale" then
        Some (column_values_from_function SPREADSHEET_VALUE_TYPE_FLOAT3
                (name column_id) size
                (λ index _, Some (value_float3 (scale (transforms index))))
                (Some default_float3_column_width))
      else
        let ids := instance_ids component_ in
        if String.eqb (name column_id) "ID" then
          Some (column_values_from_function SPREADSHEET_VALUE_TYPE_INT32
                  (name column_id) size
                  (λ index _, Some (value_int (ids index)))
                  (Some width_5_5f))
        else None.

End instances.
End InstancesDataSource.

(** ** Choosing the data source
    (spreadsheet_data_source_geometry.cc, lines 468-496) *)

(** [SpaceSpreadsheet] and [Object], with the fields the two functions
    read. *)
Record SpaceSpreadsheet := {
  object_eval_state : Z;
  geometry_component_type : Z;
  attribute_domain : Z
}.

Record Object := { Object_type : Z }.

(** The enumerators the two functions compare with. *)
Record DataSourceConstants := {
  SPREADSHEET_OBJECT_EVAL_STATE_ORIGINAL : Z;
  OB_POINTCLOUD : Z;
  GEO_COMPONENT_TYPE_MESH : Z;
  GEO_COMPONENT_TYPE_POINT_CLOUD : Z;
  GEO_COMPONENT_TYPE_INSTANCES : Z
}.

(** Lines 468-478; [sspreadsheet] is [CTX_wm_space_spreadsheet(C)]. *)
Definition get_display_component_type (K : DataSourceConstants)
    (sspreadsheet : SpaceSpreadsheet) (object_eval : Object) : Z :=
  if bool_decide (object_eval_state sspreadsheet
                  ≠ SPREADSHEET_OBJECT_EVAL_STATE_ORIGINAL K)
  then geometry_component_type sspreadsheet
  else if bool_decide (Object_type object_eval = OB_POINTCLOUD K)
  then GEO_COMPONENT_TYPE_POINT_CLOUD K
  else GEO_COMPONENT_TYPE_MESH K.

(** The [DataSource] made: an [InstancesDataSource] or a
    [GeometryDataSource], with the arguments of its constructor. *)
Inductive DataSource {GeometrySet : Type} :=
  | make_InstancesDataSource (geometry_set : GeometrySet)
  | make_GeometryDataSource (object_eval : Object) (geometry_set : GeometrySet)
      (component_type : Z) (domain : Z).
Arguments DataSource : clear implicits.

(** Lines 480-496. The geometry set shown comes from
    [spreadsheet_get_display_geometry_set], which goes through the
    dependency graph, the edit mesh and the node log; that function and
    [GeometrySet::has] are arguments here. *)
Definition data_source_from_geometry {GeometrySet : Type} (K : DataSourceConstants)
    (spreadsheet_get_display_geometry_set :
       SpaceSpreadsheet → Object → Z → GeometrySet)
    (has : GeometrySet → Z → bool)
    (sspreadsheet : SpaceSpreadsheet) (object_eval : Object)
  : option (DataSource GeometrySet) :=
  let domain := attribute_domain sspreadsheet in
  let component_type := get_display_component_type K sspreadsheet object_eval in
  let geometry_set :=
    spreadsheet_get_display_geometry_set sspreadsheet object_eval component_type in
  if negb (has geometry_set component_type) then None
  else if bool_decide (component_type = GEO_COMPONENT_TYPE_INSTANCES K)
  then Some (make_InstancesDataSource geometry_set)
  else Some (make_GeometryDataSource object_eval geometry_set component_type domain).

(** Sample values for the enumerators. *)
Definition sample_data_source_constants : DataSourceConstants :=
  {| SPREADSHEET_OBJECT_EVAL_STATE_ORIGINAL := 1;
     OB_POINTCLOUD := 28;
     GEO_COMPONENT_TYPE_MESH := 0;
     GEO_COMPONENT_TYPE_POINT_CLOUD := 1;
     GEO_COMPONENT_TYPE_INSTANCES := 2 |}.

(** Sample values for the enumerators of [AttributeDomain], a row span for
    the vertices of [sample_mesh], an instances component with two instances
    and stand-ins for the column helpers. *)
Definition sample_ATTR_DOMAIN_POINT : Z := 0.
Definition sample_ATTR_DOMAIN_EDGE : Z := 1.
Definition sample_ATTR_DOMAIN_FACE : Z := 2.
Definition sample_ATTR_DOMAIN_CORNER : Z := 3.

Definition sample_rows : list bool := [true; true; false; true].

Definition sample_mesh_without_origindex : Mesh :=
  {| totvert := totvert sample_mesh; totedge := totedge sample_mesh;
     totpoly := totpoly sample_mesh; totloop := totloop sample_mesh;
     mloop := mloop sample_mesh; medge := medge sample_mesh;
     mpoly := mpoly sample_mesh; vdata_CD_ORIGINDEX := None |}.

Definition sample_instances_component : @InstancesDataSource.InstancesComponent Z :=
  {| InstancesDataSource.instances_amount := 2;
     InstancesDataSource.instance_reference_handles := λ index, index;
     InstancesDataSource.references := λ handle,
       if bool_decide (handle = 0) then InstancesDataSource.Type_Object 7
       else InstancesDataSource.Type_None;
     InstancesDataSource.instance_transforms := λ index, index;
     InstancesDataSource.instance_ids := λ index, 100 + index |}.

Definition sample_instances_column_values_from_function
    (type : InstancesDataSource.ColumnValueType) (column_name : string) (size : Z)
    (get_value : Z → option (@InstancesDataSource.CellValue Z) →
                 option (@InstancesDataSource.CellValue Z))
    (default_width : option Z)
  : InstancesDataSource.ColumnValueType * string * Z * option Z :=
  (type, column_name, size, default_width).

Definition sample_set_default_width
    (values : InstancesDataSource.ColumnValueType * string * Z * option Z) (width : Z)
  : InstancesDataSource.ColumnValueType * string * Z * option Z :=
  (values.1.1.1, values.1.1.2, values.1.2, Some width).

Definition sample_instances_get_column_values (column_name : string)
  : option (InstancesDataSource.ColumnValueType * string * Z * option Z) :=
  InstancesDataSource.get_column_values (λ m, m) (λ m, m) (λ m, m)
    sample_instances_column_values_from_function sample_set_default_width
    80 55 30 sample_instances_component {| name := column_name |}.

Definition sample_sspreadsheet : SpaceSpreadsheet :=
  {| object_eval_state := 1; geometry_component_type := 2; attribute_domain := 0 |}.

Definition sample_object_eval : Object := {| Object_type := 28 |}.

(** ** Facts about the relation index *)

Section relations_facts.
Context (env : Environment) (mem : Memory).
Implicit Types (gh : gmap positive MainIDRelationsEntry) (r : MainIDRelations).
Implicit Types (id p target : positive).

Lemma relations_stamps_ok_empty : relations_stamps_ok mem ∅.
Proof. intros id entry Hl. by rewrite lookup_empty in Hl. Qed.

(** What [relations_entry_ensure] leaves in the hash when it returns. *)
Lemma relations_entry_ensure_inv gh id gh' :
  relations_entry_ensure env mem gh id = Some gh' →
  (is_Some (gh !! id) ∧ gh' = gh) ∨
  (gh !! id = None ∧
   gh' = <[id := {| from_ids := []; to_ids := [];
                    session_uuid := id_session_uuid mem id; tags := 0 |}]> gh).
Proof.
  unfold relations_entry_ensure. destruct (gh !! id) as [entry|] eqn:Hl.
  - intros H. left. split; [by eexists|].
    destruct (BLI_assert env _); [by injection H|done].
  - intros [= <-]. by right.
Qed.

Lemma relations_entry_ensure_is_Some gh id gh' :
  relations_entry_ensure env mem gh id = Some gh' → is_Some (gh' !! id).
Proof.
  intros [[? ->]|[_ ->]]%relations_entry_ensure_inv; [done|].
  rewrite lookup_insert_eq. by eexists.
Qed.

(** An entry that is already there is handed back as it is: its stamp is
    compared, never written. *)
Lemma relations_entry_ensure_keeps gh id gh' p entry :
  relations_entry_ensure env mem gh id = Some gh' →
  gh !! p = Some entry → gh' !! p = Some entry.
Proof.
  intros [[? ->]|[Hn ->]]%relations_entry_ensure_inv Hl; [done|].
  rewrite lookup_insert_ne; [done|]. intros ->. congruence.
Qed.

Lemma relations_entry_ensure_to_ids gh id gh' p :
  relations_entry_ensure env mem gh id = Some gh' →
  relations_to_ids gh' p = relations_to_ids gh p.
Proof.
  intros [[? ->]|[Hn ->]]%relations_entry_ensure_inv; [done|].
  unfold relations_to_ids. rewrite lookup_insert. case_decide; [subst|done].
  by rewrite Hn.
Qed.

Lemma relations_entry_ensure_from_ids gh id gh' p :
  relations_entry_ensure env mem gh id = Some gh' →
  relations_from_ids gh' p = relations_from_ids gh p.
Proof.
  intros [[? ->]|[Hn ->]]%relations_entry_ensure_inv; [done|].
  unfold relations_from_ids. rewrite lookup_insert. case_decide; [subst|done].
  by rewrite Hn.
Qed.

Lemma relations_entry_ensure_dom gh id gh' :
  relations_entry_ensure env mem gh id = Some gh' → dom gh' = {[id]} ∪ dom gh.
Proof.
  intros [[Hs ->]|[Hn ->]]%relations_entry_ensure_inv.
  - apply elem_of_dom in Hs. set_solver.
  - by rewrite dom_insert_L.
Qed.

Lemma relations_entry_ensure_stamps gh id gh' :
  relations_entry_ensure env mem gh id = Some gh' →
  relations_stamps_ok mem gh → relations_stamps_ok mem gh'.
Proof.
  intros [[? ->]|[Hn ->]]%relations_entry_ensure_inv Hok; [done|].
  intros p entry. rewrite lookup_insert. case_decide; [|by apply Hok].
  subst. by intros [= <-].
Qed.

(** With consistent stamps the assertion holds, so the block returns. *)
Lemma relations_entry_ensure_total gh id :
  relations_stamps_ok mem gh → is_Some (relations_entry_ensure env mem gh id).
Proof.
  intros Hok. unfold relations_entry_ensure.
  destruct (gh !! id) as [entry|] eqn:Hl; [|by eexists].
  unfold BLI_assert. rewrite bool_decide_eq_true_2; [|by apply Hok].
  rewrite andb_false_r. by eexists.
Qed.

(** A stale stamp trips the assertion when assertions are compiled in. *)
Lemma relations_entry_ensure_mismatch gh id entry :
  BLI_assert_enabled env = true →
  gh !! id = Some entry → session_uuid entry ≠ id_session_uuid mem id →
  relations_entry_ensure env mem gh id = None.
Proof.
  intros Hen Hl Hne. unfold relations_entry_ensure, BLI_assert. rewrite Hl, Hen.
  by rewrite bool_decide_eq_false_2.
Qed.

(** Without assertions the block does nothing to an entry that is there. *)
Lemma relations_entry_ensure_release gh id entry :
  BLI_assert_enabled env = false →
  gh !! id = Some entry → relations_entry_ensure env mem gh id = Some gh.
Proof.
  intros Hen Hl. unfold relations_entry_ensure, BLI_assert. by rewrite Hl, Hen.
Qed.

(** Linking a record into [to_ids] or [from_ids] of the entry under [id]. *)
Lemma alter_entry_link_to_to_ids gh id item p :
  is_Some (gh !! id) →
  relations_to_ids (alter (entry_link_to item) id gh) p =
  if decide (p = id) then item :: relations_to_ids gh p else relations_to_ids gh p.
Proof.
  intros [entry Hl]. unfold relations_to_ids. rewrite lookup_alter.
  destruct (decide (id = p)) as [->|Hne].
  - rewrite decide_True by done. by rewrite Hl.
  - by rewrite decide_False by congruence.
Qed.

Lemma alter_entry_link_to_from_ids gh id item p :
  relations_from_ids (alter (entry_link_to item) id gh) p = relations_from_ids gh p.
Proof.
  unfold relations_from_ids. rewrite lookup_alter.
  destruct (decide (id = p)) as [->|Hne]; [|done]. by destruct (gh !! p).
Qed.

Lemma alter_entry_link_from_from_ids gh id item p :
  is_Some (gh !! id) →
  relations_from_ids (alter (entry_link_from item) id gh) p =
  if decide (p = id) then item :: relations_from_ids gh p else relations_from_ids gh p.
Proof.
  intros [entry Hl]. unfold relations_from_ids. rewrite lookup_alter.
  destruct (decide (id = p)) as [->|Hne].
  - rewrite decide_True by done. by rewrite Hl.
  - by rewrite decide_False by congruence.
Qed.

Lemma alter_entry_link_from_to_ids gh id item p :
  relations_to_ids (alter (entry_link_from item) id gh) p = relations_to_ids gh p.
Proof.
  unfold relations_to_ids. rewrite lookup_alter.
  destruct (decide (id = p)) as [->|Hne]; [|done]. by destruct (gh !! p).
Qed.

(** Linking a record changes neither the stamp nor the tags of an entry. *)
Lemma alter_link_stamps (f : MainIDRelationsEntry → MainIDRelationsEntry) gh id :
  (∀ entry, session_uuid (f entry) = session_uuid entry) →
  relations_stamps_ok mem gh → relations_stamps_ok mem (alter f id gh).
Proof.
  intros Hf Hok p entry. rewrite lookup_alter. case_decide; [subst|by apply Hok].
  destruct (gh !! p) as [e0|] eqn:Hl; [|done]. intros [= <-].
  rewrite Hf. by apply Hok.
Qed.

Lemma alter_link_keeps (f : MainIDRelationsEntry → MainIDRelationsEntry) gh id p entry :
  gh !! p = Some entry →
  ∃ entry', alter f id gh !! p = Some entry' ∧
            (p ≠ id → entry' = entry) ∧ (p = id → entry' = f entry).
Proof.
  intros Hl. rewrite lookup_alter. case_decide; [subst|].
  - rewrite Hl. eexists. by repeat split.
  - eexists. split; [done|]. split; [done|congruence].
Qed.

(** *** The callback *)

(** On a null field the callback returns at once. *)
Lemma main_relations_create_idlink_cb_null cb_data r :
  deref mem (cb_id_pointer cb_data) = None →
  main_relations_create_idlink_cb env mem cb_data r = Some (IDWALK_RET_NOP env, r).
Proof. intros Hd. unfold main_relations_create_idlink_cb. by rewrite Hd. Qed.

(** On a populated field, what a returning callback has done. *)
Lemma main_relations_create_idlink_cb_linked cb_data r target ret r' :
  deref mem (cb_id_pointer cb_data) = Some target →
  main_relations_create_idlink_cb env mem cb_data r = Some (ret, r') →
  ret = IDWALK_RET_NOP env ∧ flag r' = flag r ∧
  (∀ p, relations_to_ids (relations_from_pointers r') p =
        if decide (p = cb_id_self cb_data)
        then to_item mem (cb_id_pointer cb_data) target (cb_cb_flag cb_data)
             :: relations_to_ids (relations_from_pointers r) p
        else relations_to_ids (relations_from_pointers r) p) ∧
  (∀ p, relations_from_ids (relations_from_pointers r') p =
        if decide (p = target)
        then from_item mem (cb_id_self cb_data) (cb_cb_flag cb_data)
             :: relations_from_ids (relations_from_pointers r) p
        else relations_from_ids (relations_from_pointers r) p) ∧
  dom (relations_from_pointers r') =
    {[cb_id_self cb_data; target]} ∪ dom (relations_from_pointers r) ∧
  (relations_stamps_ok mem (relations_from_pointers r) →
   relations_stamps_ok mem (relations_from_pointers r')) ∧
  (∀ p entry, relations_from_pointers r !! p = Some entry →
     ∃ entry', relations_from_pointers r' !! p = Some entry' ∧
               session_uuid entry' = session_uuid entry ∧
               tags entry' = tags entry).
Proof.
  intros Hd. unfold main_relations_create_idlink_cb. rewrite Hd.
  destruct (relations_entry_ensure env mem (relations_from_pointers r)
              (cb_id_self cb_data)) as [gh1|] eqn:E1; simpl; [|done].
  fold (to_item mem (cb_id_pointer cb_data) target (cb_cb_flag cb_data)).
  fold (from_item mem (cb_id_self cb_data) (cb_cb_flag cb_data)).
  set (ti := to_item _ _ _ _). set (fi := from_item _ _ _).
  destruct (relations_entry_ensure env mem (alter (entry_link_to ti)
              (cb_id_self cb_data) gh1) target) as [gh3|] eqn:E3; simpl; [|done].
  intros [= <- <-]. simpl.
  pose proof (relations_entry_ensure_is_Some _ _ _ E1) as Hs1.
  pose proof (relations_entry_ensure_is_Some _ _ _ E3) as Hs3.
  split; [done|]. split; [done|]. split; [|split; [|split; [|split]]].
  - intros p. rewrite alter_entry_link_from_to_ids.
    rewrite (relations_entry_ensure_to_ids _ _ _ _ E3).
    rewrite alter_entry_link_to_to_ids by done.
    by rewrite (relations_entry_ensure_to_ids _ _ _ _ E1).
  - intros p. rewrite alter_entry_link_from_from_ids by done.
    rewrite (relations_entry_ensure_from_ids _ _ _ _ E3).
    rewrite alter_entry_link_to_from_ids.
    by rewrite (relations_entry_ensure_from_ids _ _ _ _ E1).
  - rewrite dom_alter_L, (relations_entry_ensure_dom _ _ _ E3), dom_alter_L,
      (relations_entry_ensure_dom _ _ _ E1). set_solver.
  - intros Hok. apply alter_link_stamps; [done|].
    apply (relations_entry_ensure_stamps _ _ _ E3).
    apply alter_link_stamps; [done|].
    by apply (relations_entry_ensure_stamps _ _ _ E1).
  - intros p entry Hl.
    pose proof (relations_entry_ensure_keeps _ _ _ _ _ E1 Hl) as Hl1.
    destruct (alter_link_keeps (entry_link_to ti) _ (cb_id_self cb_data) _ _ Hl1)
      as (e2 & Hl2 & Hne2 & Heq2).
    pose proof (relations_entry_ensure_keeps _ _ _ _ _ E3 Hl2) as Hl3.
    destruct (alter_link_keeps (entry_link_from fi) _ target _ _ Hl3)
      as (e4 & Hl4 & Hne4 & Heq4).
    exists e4. split; [done|].
    assert (session_uuid e2 = session_uuid entry ∧ tags e2 = tags entry) as [? ?].
    { destruct (decide (p = cb_id_self cb_data)) as [Heq|Hne];
        [rewrite (Heq2 Heq)|rewrite (Hne2 Hne)]; done. }
    destruct (decide (p = target)) as [Heq|Hne];
      [rewrite (Heq4 Heq)|rewrite (Hne4 Hne)]; simpl; by split.
Qed.

(** With consistent stamps no assertion of the callback fails. *)
Lemma main_relations_create_idlink_cb_total cb_data r :
  relations_stamps_ok mem (relations_from_pointers r) →
  is_Some (main_relations_create_idlink_cb env mem cb_data r).
Proof.
  intros Hok. unfold main_relations_create_idlink_cb.
  destruct (deref mem (cb_id_pointer cb_data)) as [target|]; [|by eexists].
  destruct (relations_entry_ensure_total _ (cb_id_self cb_data) Hok) as [gh1 E1].
  rewrite E1. simpl.
  set (ti := {| id_pointer := id_pointer_to _ |}).
  assert (relations_stamps_ok mem (alter (entry_link_to ti) (cb_id_self cb_data) gh1))
    as Hok2.
  { apply alter_link_stamps; [done|]. by apply (relations_entry_ensure_stamps _ _ _ E1). }
  destruct (relations_entry_ensure_total _ target Hok2) as [gh3 E3].
  rewrite E3. simpl. by eexists.
Qed.

(** A returning callback keeps every entry that was there, stamp and tags
    included. *)
Lemma main_relations_create_idlink_cb_keeps cb_data r ret r' p entry :
  main_relations_create_idlink_cb env mem cb_data r = Some (ret, r') →
  relations_from_pointers r !! p = Some entry →
  ∃ entry', relations_from_pointers r' !! p = Some entry' ∧
            session_uuid entry' = session_uuid entry ∧ tags entry' = tags entry.
Proof.
  intros E Hl. destruct (deref mem (cb_id_pointer cb_data)) as [target|] eqn:Hd.
  - destruct (main_relations_create_idlink_cb_linked _ _ _ _ _ Hd E)
      as (_ & _ & _ & _ & _ & _ & Hkeep). by apply Hkeep.
  - rewrite (main_relations_create_idlink_cb_null _ _ Hd) in E.
    injection E as _ <-. by exists entry.
Qed.

(** *** The Walker over the fields of one ID *)

Lemma library_foreach_ID_link_fields_spec id fields r :
  relations_stamps_ok mem (relations_from_pointers r) →
  id ∈ dom (relations_from_pointers r) →
  ∃ r',
    library_foreach_ID_link_fields id (main_relations_create_idlink_cb env mem)
      fields r = Some r' ∧
    flag r' = flag r ∧
    relations_stamps_ok mem (relations_from_pointers r') ∧
    (∀ p, relations_to_ids (relations_from_pointers r') p =
          (if decide (p = id) then rev (fields_to_items mem fields) else [])
          ++ relations_to_ids (relations_from_pointers r) p) ∧
    (∀ p, relations_from_ids (relations_from_pointers r') p =
          rev (fields_from_items mem id p fields)
          ++ relations_from_ids (relations_from_pointers r) p) ∧
    dom (relations_from_pointers r') =
      list_to_set (fields_targets mem fields) ∪ dom (relations_from_pointers r).
Proof.
  revert r. induction fields as [|[slot cb_flag] fields IH]; intros r Hok Hid.
  { exists r. simpl. repeat split; try done.
    - intros p. by case_decide.
    - set_solver. }
  simpl.
  set (cb_data := {| cb_id_self := id; cb_id_pointer := slot; cb_cb_flag := cb_flag |}).
  destruct (deref mem slot) as [target|] eqn:Hd.
  - destruct (main_relations_create_idlink_cb_total cb_data r Hok) as [[ret r1] E1].
    rewrite E1. simpl.
    destruct (main_relations_create_idlink_cb_linked cb_data r target ret r1 Hd E1)
      as (_ & Hflag & Hto & Hfrom & Hdom & Hstamps & _).
    destruct (IH r1) as (r' & E' & Hflag' & Hok' & Hto' & Hfrom' & Hdom').
    { by apply Hstamps. }
    { rewrite Hdom. set_solver. }
    exists r'. split; [done|]. split; [congruence|]. split; [done|].
    split; [|split].
    + intros p. rewrite Hto', Hto. simpl.
      destruct (decide (p = id)) as [->|Hne]; simpl; [|done].
      by rewrite <- app_assoc.
    + intros p. rewrite Hfrom', Hfrom. simpl.
      destruct (decide (target = p)) as [->|Hne].
      * rewrite !decide_True by done. simpl. by rewrite <- app_assoc.
      * rewrite !decide_False by congruence. by simpl.
    + rewrite Hdom', Hdom. simpl in *. set_solver.
  - rewrite (main_relations_create_idlink_cb_null cb_data r Hd). simpl.
    destruct (IH r Hok Hid) as (r' & E' & Hflag' & Hok' & Hto' & Hfrom' & Hdom').
    exists r'. by repeat split.
Qed.

(** *** The loop over the Registry *)

Lemma main_relations_create_loop_spec ids flag_arg r :
  relations_stamps_ok mem (relations_from_pointers r) →
  ∃ r',
    main_relations_create_loop env mem ids flag_arg r = Some r' ∧
    flag r' = flag r ∧
    relations_stamps_ok mem (relations_from_pointers r') ∧
    (∀ p, relations_to_ids (relations_from_pointers r') p =
          rev (discovered_to_items mem ids (main_relations_idwalk_flag env flag_arg) p)
          ++ relations_to_ids (relations_from_pointers r) p) ∧
    (∀ p, relations_from_ids (relations_from_pointers r') p =
          rev (discovered_from_items mem ids (main_relations_idwalk_flag env flag_arg) p)
          ++ relations_from_ids (relations_from_pointers r) p) ∧
    dom (relations_from_pointers r') =
      list_to_set ids
      ∪ list_to_set (discovered_targets mem ids (main_relations_idwalk_flag env flag_arg))
      ∪ dom (relations_from_pointers r).
Proof.
  revert r. induction ids as [|id ids IH]; intros r Hok.
  { exists r. simpl. repeat split; try done. set_solver. }
  simpl. fold (main_relations_idwalk_flag env flag_arg).
  set (wf := main_relations_idwalk_flag env flag_arg).
  destruct (relations_entry_ensure_total _ id Hok) as [gh E]. rewrite E. simpl.
  unfold BKE_library_foreach_ID_link.
  set (r0 := {| relations_from_pointers := gh; flag := flag r |}).
  destruct (library_foreach_ID_link_fields_spec id (id_reference_fields mem id wf) r0)
    as (r1 & E1 & Hflag1 & Hok1 & Hto1 & Hfrom1 & Hdom1).
  { by apply (relations_entry_ensure_stamps _ _ _ E). }
  { simpl. rewrite (relations_entry_ensure_dom _ _ _ E). set_solver. }
  rewrite E1. simpl.
  destruct (IH r1 Hok1) as (r' & E' & Hflag' & Hok' & Hto' & Hfrom' & Hdom').
  exists r'. split; [done|]. split; [by rewrite Hflag', Hflag1|]. split; [done|].
  split; [|split].
  - intros p. rewrite Hto', Hto1. simpl.
    rewrite (relations_entry_ensure_to_ids _ _ _ _ E).
    rewrite rev_app_distr, <- app_assoc. f_equal. f_equal.
    destruct (decide (id = p)) as [->|Hne].
    + by rewrite !decide_True by done.
    + by rewrite !decide_False by congruence.
  - intros p. rewrite Hfrom', Hfrom1. simpl.
    rewrite (relations_entry_ensure_from_ids _ _ _ _ E).
    by rewrite rev_app_distr, <- app_assoc.
  - rewrite Hdom', Hdom1. simpl.
    rewrite (relations_entry_ensure_dom _ _ _ E).
    rewrite list_to_set_app_L. set_solver.
Qed.

(** [BKE_main_relations_create] only reads the list-bases of [bmain]. *)
Lemma BKE_main_relations_create_unfold bmain flag_arg :
  BKE_main_relations_create env mem bmain flag_arg =
  r ← main_relations_create_loop env mem (FOREACH_MAIN_ID bmain) flag_arg
        {| relations_from_pointers := ∅; flag := flag_arg |};
  Some {| main_listbases := main_listbases bmain; relations := Some r |}.
Proof.
  unfold BKE_main_relations_create, BKE_main_relations_free, FOREACH_MAIN_ID.
  by destruct (relations bmain).
Qed.

(** The build always returns, and this is what it returns. *)
Lemma BKE_main_relations_create_spec bmain flag_arg :
  ∃ r,
    BKE_main_relations_create env mem bmain flag_arg =
      Some {| main_listbases := main_listbases bmain; relations := Some r |} ∧
    main_relations_create_loop env mem (FOREACH_MAIN_ID bmain) flag_arg
      {| relations_from_pointers := ∅; flag := flag_arg |} = Some r ∧
    flag r = flag_arg ∧
    relations_stamps_ok mem (relations_from_pointers r) ∧
    (∀ p, relations_to_ids (relations_from_pointers r) p =
          rev (discovered_to_items mem (FOREACH_MAIN_ID bmain)
                 (main_relations_idwalk_flag env flag_arg) p)) ∧
    (∀ p, relations_from_ids (relations_from_pointers r) p =
          rev (discovered_from_items mem (FOREACH_MAIN_ID bmain)
                 (main_relations_idwalk_flag env flag_arg) p)) ∧
    dom (relations_from_pointers r) =
      list_to_set (FOREACH_MAIN_ID bmain)
      ∪ list_to_set (discovered_targets mem (FOREACH_MAIN_ID bmain)
                       (main_relations_idwalk_flag env flag_arg)).
Proof.
  destruct (main_relations_create_loop_spec (FOREACH_MAIN_ID bmain) flag_arg
              {| relations_from_pointers := ∅; flag := flag_arg |})
    as (r & E & Hflag & Hok & Hto & Hfrom & Hdom).
  { apply relations_stamps_ok_empty. }
  exists r. rewrite BKE_main_relations_create_unfold, E. simpl in *.
  split; [done|]. split; [done|]. split; [done|]. split; [done|].
  split; [|split].
  - intros p. rewrite Hto. unfold relations_to_ids. rewrite lookup_empty.
    by rewrite app_nil_r.
  - intros p. rewrite Hfrom. unfold relations_from_ids. rewrite lookup_empty.
    by rewrite app_nil_r.
  - rewrite Hdom, dom_empty_L. set_solver.
Qed.

(** *** The records a build stores are those of the populated fields *)

Lemma fields_to_items_elem item fields :
  item ∈ fields_to_items mem fields ↔
  ∃ slot target cb_flag,
    (slot, cb_flag) ∈ fields ∧ deref mem slot = Some target ∧
    item = to_item mem slot target cb_flag.
Proof.
  unfold fields_to_items. rewrite list_elem_of_In, in_flat_map. split.
  - intros ([slot cb_flag] & Hin & Hitem). apply list_elem_of_In in Hin.
    destruct (deref mem slot) as [target|] eqn:Hd; [|by destruct Hitem].
    destruct Hitem as [<-|[]]. by exists slot, target, cb_flag.
  - intros (slot & target & cb_flag & Hin & Hd & ->).
    exists (slot, cb_flag). split; [by apply list_elem_of_In|].
    rewrite Hd. by left.
Qed.

Lemma fields_from_items_elem item id_self target fields :
  item ∈ fields_from_items mem id_self target fields ↔
  ∃ slot cb_flag,
    (slot, cb_flag) ∈ fields ∧ deref mem slot = Some target ∧
    item = from_item mem id_self cb_flag.
Proof.
  unfold fields_from_items. rewrite list_elem_of_In, in_flat_map. split.
  - intros ([slot cb_flag] & Hin & Hitem). apply list_elem_of_In in Hin.
    destruct (deref mem slot) as [t|] eqn:Hd; [|by destruct Hitem].
    destruct (decide (t = target)) as [->|]; [|by destruct Hitem].
    destruct Hitem as [<-|[]]. by exists slot, cb_flag.
  - intros (slot & cb_flag & Hin & Hd & ->).
    exists (slot, cb_flag). split; [by apply list_elem_of_In|].
    rewrite Hd, decide_True by done. by left.
Qed.

Lemma discovered_to_items_elem item ids walk_flag owner :
  item ∈ discovered_to_items mem ids walk_flag owner ↔
  owner ∈ ids ∧
  ∃ slot target cb_flag,
    (slot, cb_flag) ∈ id_reference_fields mem owner walk_flag ∧
    deref mem slot = Some target ∧ item = to_item mem slot target cb_flag.
Proof.
  unfold discovered_to_items. rewrite list_elem_of_In, in_flat_map. split.
  - intros (id & Hin & Hitem). apply list_elem_of_In in Hin.
    destruct (decide (id = owner)) as [->|]; [|by destruct Hitem].
    split; [done|]. by apply fields_to_items_elem, list_elem_of_In.
  - intros (Hin & Hfields). exists owner. split; [by apply list_elem_of_In|].
    rewrite decide_True by done. by apply list_elem_of_In, fields_to_items_elem.
Qed.

Lemma discovered_from_items_elem item ids walk_flag target :
  item ∈ discovered_from_items mem ids walk_flag target ↔
  ∃ id slot cb_flag,
    id ∈ ids ∧ (slot, cb_flag) ∈ id_reference_fields mem id walk_flag ∧
    deref mem slot = Some target ∧ item = from_item mem id cb_flag.
Proof.
  unfold discovered_from_items. rewrite list_elem_of_In, in_flat_map. split.
  - intros (id & Hin & Hitem). apply list_elem_of_In in Hin.
    apply list_elem_of_In, fields_from_items_elem in Hitem
      as (slot & cb_flag & ? & ? & ?).
    by exists id, slot, cb_flag.
  - intros (id & slot & cb_flag & Hin & Hfields & Hd & Hitem).
    exists id. split; [by apply list_elem_of_In|].
    apply list_elem_of_In, fields_from_items_elem. by exists slot, cb_flag.
Qed.

(** After a build, the outgoing records under [owner] are the records of
    the populated fields of [owner], if [owner] is in the Registry, and the
    incoming records under [target] are those of the populated fields, of
    any ID of the Registry, that point to [target]. *)
Lemma BKE_main_relations_create_records bmain flag_arg :
  ∃ bmain' r,
    BKE_main_relations_create env mem bmain flag_arg = Some bmain' ∧
    relations bmain' = Some r ∧
    (∀ owner item,
       item ∈ relations_to_ids (relations_from_pointers r) owner ↔
       owner ∈ FOREACH_MAIN_ID bmain ∧
       ∃ slot target cb_flag,
         (slot, cb_flag) ∈ id_reference_fields mem owner
                             (main_relations_idwalk_flag env flag_arg) ∧
         deref mem slot = Some target ∧ item = to_item mem slot target cb_flag) ∧
    (∀ target item,
       item ∈ relations_from_ids (relations_from_pointers r) target ↔
       ∃ id slot cb_flag,
         id ∈ FOREACH_MAIN_ID bmain ∧
         (slot, cb_flag) ∈ id_reference_fields mem id
                             (main_relations_idwalk_flag env flag_arg) ∧
         deref mem slot = Some target ∧ item = from_item mem id cb_flag).
Proof.
  destruct (BKE_main_relations_create_spec bmain flag_arg)
    as (r & E & _ & _ & _ & Hto & Hfrom & _).
  eexists _, r. split; [exact E|]. split; [done|]. split.
  - intros owner item. rewrite Hto, list_elem_of_In, <- in_rev, <- list_elem_of_In.
    apply discovered_to_items_elem.
  - intros target item. rewrite Hfrom, list_elem_of_In, <- in_rev, <- list_elem_of_In.
    apply discovered_from_items_elem.
Qed.

End relations_facts.

(** ** Facts about tagging, freeing and the membership set *)

Lemma uint_testbit z i :
  Z.testbit (uint z) i = if decide (0 ≤ i < 32) then Z.testbit z i else false.
Proof.
  unfold uint. case_decide as Hi.
  - apply Z.mod_pow2_bits_low. lia.
  - destruct (Z.lt_ge_cases i 0) as [Hneg|Hpos].
    + by apply Z.testbit_neg_r.
    + apply Z.mod_pow2_bits_high. lia.
Qed.

Lemma uint_range z : 0 ≤ uint z < 2 ^ 32.
Proof. unfold uint. apply Z.mod_pos_bound. lia. Qed.

Lemma uint_id z : 0 ≤ z < 2 ^ 32 → uint z = z.
Proof. intros Hz. unfold uint. by apply Z.mod_small. Qed.

(** Setting the bits of [tag] and then clearing them is clearing them. *)
Lemma uint_set_then_clear t tag :
  uint (Z.land (uint (Z.lor t tag)) (Z.lnot tag)) = uint (Z.land t (Z.lnot tag)).
Proof.
  apply Z.bits_inj'. intros i Hi.
  rewrite !uint_testbit. case_decide; [|done].
  rewrite !Z.land_spec, uint_testbit. rewrite decide_True by done.
  rewrite Z.lor_spec. rewrite Z.lnot_spec by done.
  by destruct (Z.testbit t i), (Z.testbit tag i).
Qed.

(** Clearing bits that are not set changes nothing. *)
Lemma uint_clear_unset t tag :
  0 ≤ t < 2 ^ 32 → Z.land t tag = 0 → uint (Z.land t (Z.lnot tag)) = t.
Proof.
  intros Ht Hland. rewrite <- (uint_id t) at 2 by done.
  apply Z.bits_inj'. intros i Hi.
  rewrite !uint_testbit. case_decide; [|done].
  rewrite Z.land_spec. rewrite Z.lnot_spec by done.
  assert (Z.testbit (Z.land t tag) i = false) as Hb by (rewrite Hland; apply Z.bits_0).
  rewrite Z.land_spec in Hb.
  by destruct (Z.testbit t i), (Z.testbit tag i).
Qed.

Lemma main_relations_lookup_tag_set bmain tag value (id : positive) :
  main_relations_lookup (BKE_main_relations_tag_set bmain tag value) id =
  entry_tag_set tag value <$> main_relations_lookup bmain id.
Proof.
  unfold main_relations_lookup, BKE_main_relations_tag_set.
  destruct (relations bmain) as [r|] eqn:Hr; simpl; [|by rewrite Hr].
  by rewrite lookup_fmap.
Qed.

Lemma BKE_main_gset_create_union bmain (gset_arg : option (gset positive)) :
  BKE_main_gset_create bmain gset_arg =
  list_to_set (FOREACH_MAIN_ID bmain) ∪ default ∅ gset_arg.
Proof.
  unfold BKE_main_gset_create.
  assert (∀ (ids : list positive) (gs : gset positive),
            foldl BLI_gset_add gs ids = list_to_set ids ∪ gs) as Hfold.
  { induction ids as [|id ids IH]; intros gs; simpl; [set_solver|].
    rewrite IH. unfold BLI_gset_add. set_solver. }
  rewrite Hfold. by destruct gset_arg.
Qed.

(** ** The relation index against its specification *)

Section relations_properties.
Context (env : Environment) (mem : Memory).

(** C1, as amended. For a reference field whose current value is null the
    callback returns [IDWALK_RET_NOP] and leaves the Index as it found it: no
    outgoing record is linked into the entry of the source, no incoming
    record is linked anywhere, and no entry is created. Accordingly no build
    ends with an outgoing record that names this field. *)
Theorem idlink_cb_null_field_records_nothing cb_data r :
  deref mem (cb_id_pointer cb_data) = None →
  (∃ r',
     main_relations_create_idlink_cb env mem cb_data r = Some (IDWALK_RET_NOP env, r') ∧
     r' = r ∧
     (∀ p, relations_to_ids (relations_from_pointers r') p =
           relations_to_ids (relations_from_pointers r) p) ∧
     (∀ p, relations_from_ids (relations_from_pointers r') p =
           relations_from_ids (relations_from_pointers r) p)) ∧
  (∀ bmain flag_arg,
     ∃ bmain' r_built,
       BKE_main_relations_create env mem bmain flag_arg = Some bmain' ∧
       relations bmain' = Some r_built ∧
       ∀ owner item,
         item ∈ relations_to_ids (relations_from_pointers r_built) owner →
         id_pointer item ≠ id_pointer_to (cb_id_pointer cb_data)).
Proof.
  intros Hd. split.
  - exists r. split; [by apply main_relations_create_idlink_cb_null|].
    by repeat split.
  - intros bmain flag_arg.
    destruct (BKE_main_relations_create_records env mem bmain flag_arg)
      as (bmain' & r_built & E & Hr & Hto & _).
    exists bmain', r_built. split; [done|]. split; [done|].
    intros owner item (_ & slot & target & cb_flag & _ & Hslot & ->)%Hto.
    simpl. intros [= ->]. congruence.
Qed.

(** C3. For a reference field whose current value is a non-null ID, in any
    state a build goes through (the stamps are consistent there, see
    [main_relations_create_loop_spec]), the callback links exactly one record
    at the head of the source's [to_ids] and exactly one at the head of the
    target's [from_ids], and leaves all other lists alone. Both records carry
    [cb_flag]; the outgoing one holds the address of the field and the
    target's session UUID, the incoming one points back to the source. When
    the field is one the Walker reports for an ID of the Registry, the build
    ends with the first record among the outgoing records of the source and
    the second among the incoming records of the target. *)
Theorem idlink_cb_populated_field_records cb_data r target :
  deref mem (cb_id_pointer cb_data) = Some target →
  relations_stamps_ok mem (relations_from_pointers r) →
  ∃ r' to_record from_record,
    main_relations_create_idlink_cb env mem cb_data r = Some (IDWALK_RET_NOP env, r') ∧
    (∀ p, relations_to_ids (relations_from_pointers r') p =
          if decide (p = cb_id_self cb_data)
          then to_record :: relations_to_ids (relations_from_pointers r) p
          else relations_to_ids (relations_from_pointers r) p) ∧
    (∀ p, relations_from_ids (relations_from_pointers r') p =
          if decide (p = target)
          then from_record :: relations_from_ids (relations_from_pointers r) p
          else relations_from_ids (relations_from_pointers r) p) ∧
    usage_flag to_record = cb_cb_flag cb_data ∧
    usage_flag from_record = usage_flag to_record ∧
    id_pointer to_record = id_pointer_to (cb_id_pointer cb_data) ∧
    item_session_uuid to_record = id_session_uuid mem target ∧
    id_pointer from_record = id_pointer_from (cb_id_self cb_data) ∧
    item_session_uuid from_record = id_session_uuid mem (cb_id_self cb_data) ∧
    (∀ bmain flag_arg,
       cb_id_self cb_data ∈ FOREACH_MAIN_ID bmain →
       (cb_id_pointer cb_data, cb_cb_flag cb_data)
         ∈ id_reference_fields mem (cb_id_self cb_data)
             (main_relations_idwalk_flag env flag_arg) →
       ∃ bmain' r_built,
         BKE_main_relations_create env mem bmain flag_arg = Some bmain' ∧
         relations bmain' = Some r_built ∧
         to_record ∈ relations_to_ids (relations_from_pointers r_built)
                       (cb_id_self cb_data) ∧
         from_record ∈ relations_from_ids (relations_from_pointers r_built) target).
Proof.
  intros Hd Hok.
  destruct (main_relations_create_idlink_cb_total env mem cb_data r Hok) as [[ret r'] E].
  destruct (main_relations_create_idlink_cb_linked env mem _ _ _ _ _ Hd E)
    as (-> & _ & Hto & Hfrom & _).
  exists r', (to_item mem (cb_id_pointer cb_data) target (cb_cb_flag cb_data)),
    (from_item mem (cb_id_self cb_data) (cb_cb_flag cb_data)).
  do 9 (split; [done|]).
  intros bmain flag_arg Hin Hfield.
  destruct (BKE_main_relations_create_records env mem bmain flag_arg)
    as (bmain' & r_built & Eb & Hr & Hbto & Hbfrom).
  exists bmain', r_built. split; [done|]. split; [done|]. split.
  - apply Hbto. split; [done|]. by eexists _, _, _.
  - apply Hbfrom. by eexists _, _, _.
Qed.

(** C2. Whatever the Registry and the flags, the build returns, leaves the
    Registry as it was, and the hash then holds, for every ID of the
    Registry, one entry and only one, stamped with the ID's session UUID,
    whether or not the ID has reference fields or users. When no ID is listed
    twice and every populated field points into the Registry, the hash has
    as many entries as the Registry has IDs. *)
Theorem BKE_main_relations_create_entry_for_every_ID bmain flag_arg :
  ∃ bmain' r,
    BKE_main_relations_create env mem bmain flag_arg = Some bmain' ∧
    main_listbases bmain' = main_listbases bmain ∧
    relations bmain' = Some r ∧
    (∀ id, id ∈ FOREACH_MAIN_ID bmain' →
       ∃ entry, main_relations_lookup bmain' id = Some entry ∧
                (∀ entry2, main_relations_lookup bmain' id = Some entry2 →
                           entry2 = entry) ∧
                session_uuid entry = id_session_uuid mem id) ∧
    (NoDup (FOREACH_MAIN_ID bmain) →
     (∀ target, target ∈ discovered_targets mem (FOREACH_MAIN_ID bmain)
                           (main_relations_idwalk_flag env flag_arg) →
                target ∈ FOREACH_MAIN_ID bmain) →
     size (relations_from_pointers r) = length (FOREACH_MAIN_ID bmain)).
Proof.
  destruct (BKE_main_relations_create_spec env mem bmain flag_arg)
    as (r & E & _ & _ & Hok & _ & _ & Hdom).
  eexists _, r. split; [exact E|]. split; [done|]. split; [done|]. split.
  - intros id Hid. unfold main_relations_lookup. simpl.
    assert (id ∈ dom (relations_from_pointers r)) as [entry Hl]%elem_of_dom.
    { rewrite Hdom. apply elem_of_union_l. by apply elem_of_list_to_set. }
    exists entry. split; [done|]. split; [congruence|]. by apply Hok.
  - intros Hnodup Hclosed.
    rewrite <- size_dom, Hdom.
    replace (list_to_set (FOREACH_MAIN_ID bmain)
             ∪ list_to_set (discovered_targets mem (FOREACH_MAIN_ID bmain)
                              (main_relations_idwalk_flag env flag_arg)))
      with (list_to_set (C := gset positive) (FOREACH_MAIN_ID bmain)).
    + by apply size_list_to_set.
    + apply set_eq. intros x. rewrite elem_of_union, !elem_of_list_to_set.
      naive_solver.
Qed.

(** C5. Building a second time, right after a build and with the same
    flags, returns the very Index the first build returned; in particular
    both hold the same edges. *)
Theorem BKE_main_relations_create_twice bmain flag_arg :
  ∃ bmain1 bmain2,
    BKE_main_relations_create env mem bmain flag_arg = Some bmain1 ∧
    BKE_main_relations_create env mem bmain1 flag_arg = Some bmain2 ∧
    main_relations_edges bmain2 ≡ₚ main_relations_edges bmain1 ∧
    bmain2 = bmain1.
Proof.
  destruct (BKE_main_relations_create_spec env mem bmain flag_arg)
    as (r & E & Eloop & _).
  eexists _, _. split; [exact E|].
  rewrite BKE_main_relations_create_unfold. unfold FOREACH_MAIN_ID in *. simpl.
  rewrite Eloop. simpl. by repeat split.
Qed.

(** C7. A build never trips the stamp assertion, even with assertions
    compiled in, and ends with every entry stamped with the session UUID of
    its ID. An entry found with another stamp makes [BLI_assert] fail; the
    code has no statement that rewrites the stamp of an entry that is there:
    the ensure block hands such an entry back unchanged, and the callback and
    [BKE_main_relations_tag_set] keep its stamp. *)
Theorem relations_entry_stamp_checked_never_updated :
  (∀ bmain flag_arg,
     ∃ bmain' r, BKE_main_relations_create env mem bmain flag_arg = Some bmain' ∧
                 relations bmain' = Some r ∧
                 relations_stamps_ok mem (relations_from_pointers r)) ∧
  (∀ gh (id : positive) entry,
     BLI_assert_enabled env = true →
     gh !! id = Some entry → session_uuid entry ≠ id_session_uuid mem id →
     relations_entry_ensure env mem gh id = None) ∧
  (∀ gh (id : positive) gh' (p : positive) entry,
     relations_entry_ensure env mem gh id = Some gh' →
     gh !! p = Some entry → gh' !! p = Some entry) ∧
  (∀ cb_data r ret r' (p : positive) entry,
     main_relations_create_idlink_cb env mem cb_data r = Some (ret, r') →
     relations_from_pointers r !! p = Some entry →
     ∃ entry', relations_from_pointers r' !! p = Some entry' ∧
               session_uuid entry' = session_uuid entry) ∧
  (∀ bmain tag value (id : positive) entry,
     main_relations_lookup bmain id = Some entry →
     ∃ entry', main_relations_lookup (BKE_main_relations_tag_set bmain tag value) id
                 = Some entry' ∧
               session_uuid entry' = session_uuid entry).
Proof.
  split; [|split; [|split; [|split]]].
  - intros bmain flag_arg.
    destruct (BKE_main_relations_create_spec env mem bmain flag_arg)
      as (r & E & _ & _ & Hok & _).
    by eexists _, r.
  - apply relations_entry_ensure_mismatch.
  - apply relations_entry_ensure_keeps.
  - intros cb_data r ret r' p entry E Hl.
    destruct (main_relations_create_idlink_cb_keeps env mem _ _ _ _ _ _ E Hl)
      as (entry' & ? & ? & _).
    by exists entry'.
  - intros bmain tag value id entry Hl.
    rewrite main_relations_lookup_tag_set, Hl. simpl. by eexists.
Qed.

End relations_properties.

(** C4, as amended. Setting a tag on all entries and then clearing it is
    the same as clearing it: every entry ends with its earlier tag word minus
    the bits of the tag, its lists and stamp untouched. The earlier word is
    therefore restored exactly in the entries that had no bit of the tag
    set. *)
Theorem BKE_main_relations_tag_set_then_clear bmain tag (id : positive) entry :
  main_relations_lookup bmain id = Some entry →
  BKE_main_relations_tag_set (BKE_main_relations_tag_set bmain tag true) tag false =
    BKE_main_relations_tag_set bmain tag false ∧
  ∃ entry',
    main_relations_lookup
      (BKE_main_relations_tag_set (BKE_main_relations_tag_set bmain tag true) tag false)
      id = Some entry' ∧
    tags entry' = uint (Z.land (tags entry) (Z.lnot tag)) ∧
    (0 ≤ tags entry < 2 ^ 32 → Z.land (tags entry) tag = 0 →
     tags entry' = tags entry) ∧
    to_ids entry' = to_ids entry ∧ from_ids entry' = from_ids entry ∧
    session_uuid entry' = session_uuid entry.
Proof.
  intros Hl. split.
  - unfold BKE_main_relations_tag_set.
    destruct (relations bmain) as [r|] eqn:Hr; simpl; [|by rewrite Hr].
    do 3 f_equal. rewrite <- map_fmap_compose. apply map_fmap_ext.
    intros p e _. unfold entry_tag_set, compose. simpl. f_equal.
    apply uint_set_then_clear.
  - rewrite !main_relations_lookup_tag_set, Hl. simpl. eexists. split; [done|].
    simpl. split; [apply uint_set_then_clear|]. split; [|done].
    intros Hrange Hland. rewrite uint_set_then_clear. by apply uint_clear_unset.
Qed.

(** C10. [BKE_main_relations_tag_set] leaves the Registry, the build flags
    and the set of keys of the hash as they are, and in every entry the two
    lists, the stamp and every bit of the tag word that is not a bit of the
    tag. *)
Theorem BKE_main_relations_tag_set_frame bmain tag value :
  main_listbases (BKE_main_relations_tag_set bmain tag value) = main_listbases bmain ∧
  match relations bmain with
  | None => relations (BKE_main_relations_tag_set bmain tag value) = None
  | Some r =>
      ∃ r', relations (BKE_main_relations_tag_set bmain tag value) = Some r' ∧
            dom (relations_from_pointers r') = dom (relations_from_pointers r) ∧
            flag r' = flag r
  end ∧
  ∀ id : positive,
    match main_relations_lookup bmain id with
    | None => main_relations_lookup (BKE_main_relations_tag_set bmain tag value) id = None
    | Some entry =>
        ∃ entry',
          main_relations_lookup (BKE_main_relations_tag_set bmain tag value) id
            = Some entry' ∧
          to_ids entry' = to_ids entry ∧
          from_ids entry' = from_ids entry ∧
          session_uuid entry' = session_uuid entry ∧
          ∀ i, 0 ≤ i < 32 → Z.testbit tag i = false →
               Z.testbit (tags entry') i = Z.testbit (tags entry) i
    end.
Proof.
  split; [|split].
  - unfold BKE_main_relations_tag_set. by destruct (relations bmain).
  - unfold BKE_main_relations_tag_set. destruct (relations bmain) as [r|] eqn:Hr.
    + eexists. split; [done|]. simpl. by rewrite dom_fmap_L.
    + done.
  - intros id. rewrite main_relations_lookup_tag_set.
    destruct (main_relations_lookup bmain id) as [entry|]; [|done].
    simpl. eexists. split; [done|]. simpl. repeat split; try done.
    intros i Hi Hbit. destruct value.
    + rewrite uint_testbit, decide_True by done.
      rewrite Z.lor_spec, Hbit. by rewrite orb_false_r.
    + rewrite uint_testbit, decide_True by done.
      rewrite Z.land_spec. rewrite Z.lnot_spec by lia.
      rewrite Hbit. by rewrite andb_true_r.
Qed.

(** C6. [BKE_main_relations_free] leaves [relations] null and the Registry
    as it was; on a [Main] whose [relations] is null already it changes
    nothing; and after it a lookup of any ID finds no entry. *)
Theorem BKE_main_relations_free_unbuilt bmain :
  relations (BKE_main_relations_free bmain) = None ∧
  main_listbases (BKE_main_relations_free bmain) = main_listbases bmain ∧
  (relations bmain = None → BKE_main_relations_free bmain = bmain) ∧
  BKE_main_relations_free (BKE_main_relations_free bmain) = BKE_main_relations_free bmain ∧
  ∀ id : positive, main_relations_lookup (BKE_main_relations_free bmain) id = None.
Proof.
  unfold BKE_main_relations_free, main_relations_lookup.
  destruct (relations bmain) as [r|] eqn:Hr; simpl; rewrite ?Hr; by repeat split.
Qed.

(** C9. The set [BKE_main_gset_create] returns holds every ID of the
    Registry; given a set, it returns that set with the IDs of the Registry
    added, so everything that was in it is still there; given none, it
    returns exactly the IDs of the Registry. *)
Theorem BKE_main_gset_create_members bmain (gset_arg : option (gset positive)) :
  (∀ id, id ∈ FOREACH_MAIN_ID bmain → id ∈ BKE_main_gset_create bmain gset_arg) ∧
  (∀ gs, gset_arg = Some gs →
         gs ⊆ BKE_main_gset_create bmain gset_arg ∧
         BKE_main_gset_create bmain gset_arg = list_to_set (FOREACH_MAIN_ID bmain) ∪ gs) ∧
  (gset_arg = None →
   BKE_main_gset_create bmain gset_arg = list_to_set (FOREACH_MAIN_ID bmain)).
Proof.
  rewrite BKE_main_gset_create_union. split; [|split].
  - intros id Hid. apply elem_of_union_l. by apply elem_of_list_to_set.
  - intros gs ->. simpl. split; [set_solver|done].
  - intros ->. simpl. set_solver.
Qed.

(** ** The column adapter against its specification *)

(** C8. [get_column_values] returns a null pointer when the component has
    no attribute of the requested name, when the attribute lives on another
    domain than the data source, and when the type of its values is none of
    the six the function has a column for. *)
Theorem get_column_values_absent {CPPType GenericValue ColumnWidth ColumnValues : Type}
    (cpp_type_to_custom_data_type : CPPType → CustomDataType)
    (column_values_from_function :
       eSpreadsheetColumnValueType → string → Z → (Z → @CellValue GenericValue) →
       option ColumnWidth → option ColumnValues)
    (width2 width3 width_color : ColumnWidth)
    (self : @GeometryDataSource CPPType GenericValue)
    (column_id : SpreadsheetColumnID) :
  varray (attribute_try_get_for_read (component_ self) (name column_id)) = None ∨
  domain (attribute_try_get_for_read (component_ self) (name column_id)) ≠ domain_ self ∨
  (∃ values,
     varray (attribute_try_get_for_read (component_ self) (name column_id)) = Some values ∧
     cpp_type_to_custom_data_type (varray_type values) ∉ displayable_types) →
  get_column_values cpp_type_to_custom_data_type column_values_from_function
    width2 width3 width_color self column_id = None.
Proof.
  unfold get_column_values.
  destruct (varray (attribute_try_get_for_read (component_ self) (name column_id)))
    as [values|]; [|done].
  intros [?|[Hdom|(values' & [= <-] & Htype)]]; [done| |].
  - by rewrite bool_decide_eq_true_2.
  - case_bool_decide; [done|].
    destruct (cpp_type_to_custom_data_type (varray_type values)); try done;
      exfalso; apply Htype; unfold displayable_types; set_solver.
Qed.

(** ** The properties on the sample Registry *)

(** C1: the field [next] of A is null, and the build leaves no outgoing
    record for it in the entry of A, with the unset stamp or any other. *)
Lemma null_field_outgoing_record_counterexample :
  ¬ (∃ bmain' entry item,
       BKE_main_relations_create sample_env sample_mem sample_main 0 = Some bmain' ∧
       main_relations_lookup bmain' id_A = Some entry ∧
       to_ids entry = [item] ∧
       item_session_uuid item = MAIN_ID_SESSION_UUID_UNSET sample_env).
Proof.
  intros (bmain' & entry & item & E & Hl & Hto & _).
  vm_compute in E. injection E as <-.
  vm_compute in Hl. injection Hl as <-.
  discriminate Hto.
Qed.

(** The callback on the null field of A, from an empty Index. *)
Lemma idlink_cb_null_field_records_nothing_witness :
  deref sample_mem slot_A_next = None ∧
  (∃ r',
     main_relations_create_idlink_cb sample_env sample_mem
       {| cb_id_self := id_A; cb_id_pointer := slot_A_next; cb_cb_flag := 0 |}
       {| relations_from_pointers := ∅; flag := 0 |}
     = Some (IDWALK_RET_NOP sample_env, r') ∧
     r' = {| relations_from_pointers := ∅; flag := 0 |} ∧
     (∀ p, relations_to_ids (relations_from_pointers r') p =
           relations_to_ids (∅ : gmap positive MainIDRelationsEntry) p) ∧
     (∀ p, relations_from_ids (relations_from_pointers r') p =
           relations_from_ids (∅ : gmap positive MainIDRelationsEntry) p)) ∧
  (∀ bmain flag_arg,
     ∃ bmain' r_built,
       BKE_main_relations_create sample_env sample_mem bmain flag_arg = Some bmain' ∧
       relations bmain' = Some r_built ∧
       ∀ owner item,
         item ∈ relations_to_ids (relations_from_pointers r_built) owner →
         id_pointer item ≠ id_pointer_to slot_A_next).
Proof.
  split; [reflexivity|].
  apply (idlink_cb_null_field_records_nothing sample_env sample_mem
           {| cb_id_self := id_A; cb_id_pointer := slot_A_next; cb_cb_flag := 0 |}
           {| relations_from_pointers := ∅; flag := 0 |}).
  reflexivity.
Defined.

(** The callback on the field of B, which points to A, from an empty
    Index. *)
Lemma idlink_cb_populated_field_records_witness :
  deref sample_mem slot_B_next = Some id_A ∧
  ∃ r' to_record from_record,
    main_relations_create_idlink_cb sample_env sample_mem
      {| cb_id_self := id_B; cb_id_pointer := slot_B_next; cb_cb_flag := 0 |}
      {| relations_from_pointers := ∅; flag := 0 |}
    = Some (IDWALK_RET_NOP sample_env, r') ∧
    (∀ p, relations_to_ids (relations_from_pointers r') p =
          if decide (p = id_B) then to_record :: relations_to_ids ∅ p
          else relations_to_ids ∅ p) ∧
    (∀ p, relations_from_ids (relations_from_pointers r') p =
          if decide (p = id_A) then from_record :: relations_from_ids ∅ p
          else relations_from_ids ∅ p) ∧
    usage_flag to_record = 0 ∧
    usage_flag from_record = usage_flag to_record ∧
    id_pointer to_record = id_pointer_to slot_B_next ∧
    item_session_uuid to_record = id_session_uuid sample_mem id_A ∧
    id_pointer from_record = id_pointer_from id_B ∧
    item_session_uuid from_record = id_session_uuid sample_mem id_B ∧
    (∀ bmain flag_arg,
       id_B ∈ FOREACH_MAIN_ID bmain →
       (slot_B_next, 0)
         ∈ id_reference_fields sample_mem id_B
             (main_relations_idwalk_flag sample_env flag_arg) →
       ∃ bmain' r_built,
         BKE_main_relations_create sample_env sample_mem bmain flag_arg = Some bmain' ∧
         relations bmain' = Some r_built ∧
         to_record ∈ relations_to_ids (relations_from_pointers r_built) id_B ∧
         from_record ∈ relations_from_ids (relations_from_pointers r_built) id_A).
Proof.
  split; [reflexivity|].
  apply (idlink_cb_populated_field_records sample_env sample_mem
           {| cb_id_self := id_B; cb_id_pointer := slot_B_next; cb_cb_flag := 0 |}
           {| relations_from_pointers := ∅; flag := 0 |} id_A).
  - reflexivity.
  - intros id entry Hl. discriminate Hl.
Defined.

(** C4: an entry whose tag word has bit 0 set loses it when the tag is set
    and then cleared. *)
Lemma tag_set_then_clear_restores_counterexample :
  tags <$> main_relations_lookup
             (BKE_main_relations_tag_set (BKE_main_relations_tag_set tagged_main 1 true)
                1 false) id_A
  ≠ tags <$> main_relations_lookup tagged_main id_A.
Proof. vm_compute. discriminate. Qed.

(** Tag 2 is not set in the entry of A, whose tag word is 1: setting and
    clearing it gives 1 back. *)
Lemma BKE_main_relations_tag_set_then_clear_witness :
  main_relations_lookup tagged_main id_A
    = Some {| from_ids := []; to_ids := []; session_uuid := 101; tags := 1 |} ∧
  BKE_main_relations_tag_set (BKE_main_relations_tag_set tagged_main 2 true) 2 false =
    BKE_main_relations_tag_set tagged_main 2 false ∧
  ∃ entry',
    main_relations_lookup
      (BKE_main_relations_tag_set (BKE_main_relations_tag_set tagged_main 2 true) 2 false)
      id_A = Some entry' ∧
    tags entry' = uint (Z.land 1 (Z.lnot 2)) ∧
    (0 ≤ 1 < 2 ^ 32 → Z.land 1 2 = 0 → tags entry' = 1) ∧
    to_ids entry' = [] ∧ from_ids entry' = [] ∧ session_uuid entry' = 101.
Proof.
  split; [reflexivity|].
  apply (BKE_main_relations_tag_set_then_clear tagged_main 2 id_A
           {| from_ids := []; to_ids := []; session_uuid := 101; tags := 1 |}).
  reflexivity.
Defined.

(** An attribute that does not exist, one on another domain, and one of a
    type without a column. *)
Lemma get_column_values_absent_witness :
  sample_get_column_values "missing" = None ∧
  sample_get_column_values "crease" = None ∧
  sample_get_column_values "label" = None.
Proof.
  split; [|split]; apply get_column_values_absent.
  - left. reflexivity.
  - right. left. vm_compute. discriminate.
  - right. right. eexists. split; [reflexivity|].
    vm_compute. intros H. repeat (inversion H as [|? ? ? H']; clear H; rename H' into H).
Defined.

(** The sample data source does produce the column of a float attribute
    of its own domain. *)
Example sample_get_column_values_radius :
  sample_get_column_values "radius" = Some (SPREADSHEET_VALUE_TYPE_FLOAT, "radius"%string, 3).
Proof. reflexivity. Qed.

(** The scenario of the specification: B points to A, the field of A is
    null. *)
Example sample_main_built :
  ∃ bmain',
    BKE_main_relations_create sample_env sample_mem sample_main 0 = Some bmain' ∧
    main_relations_lookup bmain' id_A =
      Some {| from_ids := [ {| id_pointer := id_pointer_from id_B;
                               item_session_uuid := 102; usage_flag := 0 |} ];
              to_ids := []; session_uuid := 101; tags := 0 |} ∧
    main_relations_lookup bmain' id_B =
      Some {| from_ids := [];
              to_ids := [ {| id_pointer := id_pointer_to slot_B_next;
                             item_session_uuid := 101; usage_flag := 0 |} ];
              session_uuid := 102; tags := 0 |}.
Proof. eexists. split; [vm_compute; reflexivity|]. split; reflexivity. Qed.

(** ** More about the relation index *)

Section relations_more.
Context (env : Environment) (mem : Memory).
Implicit Types (gh : gmap positive MainIDRelationsEntry) (r : MainIDRelations).

(** A property of entries that holds of a new entry and survives the
    linking of a record holds of every entry once the loop returns. *)
Lemma relations_entry_ensure_Forall (P : positive → MainIDRelationsEntry → Prop) gh id gh' :
  (∀ p, P p {| from_ids := []; to_ids := [];
               session_uuid := id_session_uuid mem p; tags := 0 |}) →
  relations_entry_ensure env mem gh id = Some gh' →
  map_Forall P gh → map_Forall P gh'.
Proof.
  intros Hnew [[? ->]|[Hn ->]]%relations_entry_ensure_inv HP; [done|].
  by apply map_Forall_insert_2.
Qed.

Lemma alter_Forall (P : positive → MainIDRelationsEntry → Prop)
    (f : MainIDRelationsEntry → MainIDRelationsEntry) gh (id : positive) :
  (∀ p entry, P p entry → P p (f entry)) →
  map_Forall P gh → map_Forall P (alter f id gh).
Proof.
  intros Hf HP p entry. rewrite lookup_alter. case_decide; [subst|by apply HP].
  destruct (gh !! p) as [e0|] eqn:Hl; [|done]. intros [= <-]. by apply Hf, HP.
Qed.

Lemma main_relations_create_idlink_cb_Forall
    (P : positive → MainIDRelationsEntry → Prop) cb_data r ret r' :
  (∀ p, P p {| from_ids := []; to_ids := [];
               session_uuid := id_session_uuid mem p; tags := 0 |}) →
  (∀ p item entry, P p entry → P p (entry_link_to item entry)) →
  (∀ p item entry, P p entry → P p (entry_link_from item entry)) →
  main_relations_create_idlink_cb env mem cb_data r = Some (ret, r') →
  map_Forall P (relations_from_pointers r) →
  map_Forall P (relations_from_pointers r').
Proof.
  intros Hnew Hto Hfrom. unfold main_relations_create_idlink_cb.
  destruct (deref mem (cb_id_pointer cb_data)) as [target|]; [|by intros [= _ <-]].
  destruct (relations_entry_ensure env mem (relations_from_pointers r)
              (cb_id_self cb_data)) as [gh1|] eqn:E1; simpl; [|done].
  destruct (relations_entry_ensure env mem (alter _ (cb_id_self cb_data) gh1) target)
    as [gh3|] eqn:E3; simpl; [|done].
  intros [= _ <-] HP. simpl.
  apply alter_Forall; [by auto|].
  apply (relations_entry_ensure_Forall P _ _ _ Hnew E3).
  apply alter_Forall; [by auto|].
  by apply (relations_entry_ensure_Forall P _ _ _ Hnew E1).
Qed.

Lemma library_foreach_ID_link_fields_Forall
    (P : positive → MainIDRelationsEntry → Prop) id fields r r' :
  (∀ p, P p {| from_ids := []; to_ids := [];
               session_uuid := id_session_uuid mem p; tags := 0 |}) →
  (∀ p item entry, P p entry → P p (entry_link_to item entry)) →
  (∀ p item entry, P p entry → P p (entry_link_from item entry)) →
  library_foreach_ID_link_fields id (main_relations_create_idlink_cb env mem) fields r
    = Some r' →
  map_Forall P (relations_from_pointers r) →
  map_Forall P (relations_from_pointers r').
Proof.
  intros Hnew Hto Hfrom. revert r.
  induction fields as [|[slot cb_flag] fields IH]; intros r; simpl.
  { by intros [= <-]. }
  destruct (main_relations_create_idlink_cb env mem _ r) as [[ret r1]|] eqn:E1;
    simpl; [|done].
  intros E HP. apply (IH r1 E).
  by apply (main_relations_create_idlink_cb_Forall P _ _ _ _ Hnew Hto Hfrom E1).
Qed.

Lemma main_relations_create_loop_Forall
    (P : positive → MainIDRelationsEntry → Prop) ids flag_arg r r' :
  (∀ p, P p {| from_ids := []; to_ids := [];
               session_uuid := id_session_uuid mem p; tags := 0 |}) →
  (∀ p item entry, P p entry → P p (entry_link_to item entry)) →
  (∀ p item entry, P p entry → P p (entry_link_from item entry)) →
  main_relations_create_loop env mem ids flag_arg r = Some r' →
  map_Forall P (relations_from_pointers r) →
  map_Forall P (relations_from_pointers r').
Proof.
  intros Hnew Hto Hfrom. revert r.
  induction ids as [|id ids IH]; intros r; simpl.
  { by intros [= <-]. }
  destruct (relations_entry_ensure env mem (relations_from_pointers r) id)
    as [gh|] eqn:E; simpl; [|done].
  destruct (BKE_library_foreach_ID_link mem id _ _ _) as [r1|] eqn:E1; simpl; [|done].
  intros E' HP. apply (IH r1 E').
  apply (library_foreach_ID_link_fields_Forall P _ _ _ _ Hnew Hto Hfrom E1). simpl.
  by apply (relations_entry_ensure_Forall P _ _ _ Hnew E).
Qed.





End relations_more.

Section relations_extra.
Context (env : Environment) (mem : Memory).


(** X2. A build stores the flags it was given and leaves every entry with
    a zero tag word, whatever Index, tagged or not, was there before. *)
Theorem BKE_main_relations_create_flag_and_tags bmain flag_arg :
  ∃ bmain' r,
    BKE_main_relations_create env mem bmain flag_arg = Some bmain' ∧
    relations bmain' = Some r ∧
    flag r = flag_arg ∧
    ∀ (id : positive) entry, main_relations_lookup bmain' id = Some entry →
                             tags entry = 0.
Proof.
  destruct (BKE_main_relations_create_spec env mem bmain flag_arg)
    as (r & E & Eloop & Hflag & _).
  eexists _, r. split; [exact E|]. split; [done|]. split; [done|].
  intros id entry Hl. unfold main_relations_lookup in Hl. simpl in Hl.
  revert id entry Hl. change (map_Forall (λ _ entry, tags entry = 0)
                                (relations_from_pointers r)).
  eapply (main_relations_create_loop_Forall env mem (λ _ entry, tags entry = 0));
    [done|done|done|exact Eloop|].
  simpl. apply map_Forall_empty.
Qed.

(** X3. In a built Index the two directions agree: every incoming record
    under a target comes with an outgoing record under the user it names,
    made for a field that points to the target and carrying the same usage
    flags; and every outgoing record comes with such an incoming record
    under the ID its field points to. *)
Theorem BKE_main_relations_create_directions_agree bmain flag_arg :
  ∃ bmain' r,
    BKE_main_relations_create env mem bmain flag_arg = Some bmain' ∧
    relations bmain' = Some r ∧
    (∀ target incoming,
       incoming ∈ relations_from_ids (relations_from_pointers r) target →
       ∃ owner slot outgoing,
         id_pointer incoming = id_pointer_from owner ∧
         item_session_uuid incoming = id_session_uuid mem owner ∧
         outgoing ∈ relations_to_ids (relations_from_pointers r) owner ∧
         id_pointer outgoing = id_pointer_to slot ∧
         deref mem slot = Some target ∧
         item_session_uuid outgoing = id_session_uuid mem target ∧
         usage_flag outgoing = usage_flag incoming) ∧
    (∀ owner outgoing,
       outgoing ∈ relations_to_ids (relations_from_pointers r) owner →
       ∃ slot target incoming,
         id_pointer outgoing = id_pointer_to slot ∧
         deref mem slot = Some target ∧
         item_session_uuid outgoing = id_session_uuid mem target ∧
         incoming ∈ relations_from_ids (relations_from_pointers r) target ∧
         id_pointer incoming = id_pointer_from owner ∧
         item_session_uuid incoming = id_session_uuid mem owner ∧
         usage_flag incoming = usage_flag outgoing).
Proof.
  destruct (BKE_main_relations_create_records env mem bmain flag_arg)
    as (bmain' & r & E & Hr & Hto & Hfrom).
  exists bmain', r. split; [done|]. split; [done|]. split.
  - intros target incoming (id & slot & cb_flag & Hin & Hf & Hd & ->)%Hfrom.
    exists id, slot, (to_item mem slot target cb_flag).
    split; [done|]. split; [done|]. split; [|done].
    apply Hto. split; [done|]. by exists slot, target, cb_flag.
  - intros owner outgoing (Hin & slot & target & cb_flag & Hf & Hd & ->)%Hto.
    exists slot, target, (from_item mem owner cb_flag).
    split; [done|]. split; [done|]. split; [done|]. split; [|done].
    apply Hfrom. by exists owner, slot, cb_flag.
Qed.


(** X5. A build takes nothing from the Index that was there: building
    after tagging or after freeing gives what building gives, and freeing
    the result of a build gives the [Main] a plain free gives. *)
Theorem BKE_main_relations_create_discards_previous bmain flag_arg tag value :
  BKE_main_relations_create env mem (BKE_main_relations_tag_set bmain tag value) flag_arg
    = BKE_main_relations_create env mem bmain flag_arg ∧
  BKE_main_relations_create env mem (BKE_main_relations_free bmain) flag_arg
    = BKE_main_relations_create env mem bmain flag_arg ∧
  BKE_main_relations_free <$> BKE_main_relations_create env mem bmain flag_arg
    = Some (BKE_main_relations_free bmain).
Proof.
  split; [|split].
  - rewrite !BKE_main_relations_create_unfold. unfold FOREACH_MAIN_ID.
    by rewrite (proj1 (BKE_main_relations_tag_set_frame bmain tag value)).
  - rewrite !BKE_main_relations_create_unfold. unfold FOREACH_MAIN_ID.
    unfold BKE_main_relations_free. by destruct (relations bmain).
  - destruct (BKE_main_relations_create_spec env mem bmain flag_arg) as (r & E & _).
    rewrite E. simpl. unfold BKE_main_relations_free. simpl.
    by destruct bmain as [lbs [r0|]].
Qed.

End relations_extra.

(** X6. Tagging twice with the same tag and value is tagging once. After a
    tag was set, every entry has each of its bits (of the 32 of the word)
    set; after it was cleared, none; and the tag word stays an unsigned
    32-bit value. *)
Theorem BKE_main_relations_tag_set_idempotent bmain tag value :
  BKE_main_relations_tag_set (BKE_main_relations_tag_set bmain tag value) tag value
    = BKE_main_relations_tag_set bmain tag value ∧
  ∀ (id : positive) entry,
    main_relations_lookup (BKE_main_relations_tag_set bmain tag value) id = Some entry →
    0 ≤ tags entry < 2 ^ 32 ∧
    ∀ i, 0 ≤ i < 32 → Z.testbit tag i = true → Z.testbit (tags entry) i = value.
Proof.
  split.
  - unfold BKE_main_relations_tag_set.
    destruct (relations bmain) as [r|] eqn:Hr; simpl; [|by rewrite Hr].
    do 3 f_equal. rewrite <- map_fmap_compose. apply map_fmap_ext.
    intros p e _. unfold entry_tag_set, compose. simpl. f_equal.
    apply Z.bits_inj'. intros i Hi. destruct value.
    + rewrite !uint_testbit. case_decide; [|done].
      rewrite Z.lor_spec, uint_testbit, decide_True, Z.lor_spec by done.
      by destruct (Z.testbit (tags e) i), (Z.testbit tag i).
    + rewrite !uint_testbit. case_decide; [|done].
      rewrite Z.land_spec, uint_testbit, decide_True, Z.land_spec by done.
      by destruct (Z.testbit (tags e) i), (Z.testbit (Z.lnot tag) i).
  - intros id entry. rewrite main_relations_lookup_tag_set.
    destruct (main_relations_lookup bmain id) as [e|]; [|done].
    intros [= <-]. simpl. split; [destruct value; apply uint_range|].
    intros i Hi Hbit. destruct value.
    + rewrite uint_testbit, decide_True by done.
      rewrite Z.lor_spec, Hbit. by rewrite orb_true_r.
    + rewrite uint_testbit, decide_True by done.
      rewrite Z.land_spec. rewrite Z.lnot_spec by lia.
      rewrite Hbit. by rewrite andb_false_r.
Qed.

(** X7. Two taggings can be swapped when they set or clear alike, or when
    their tags share no bit. *)
Theorem BKE_main_relations_tag_set_commute bmain tag1 value1 tag2 value2 :
  value1 = value2 ∨ Z.land tag1 tag2 = 0 →
  BKE_main_relations_tag_set (BKE_main_relations_tag_set bmain tag2 value2) tag1 value1
    = BKE_main_relations_tag_set (BKE_main_relations_tag_set bmain tag1 value1) tag2 value2.
Proof.
  intros Hcond. unfold BKE_main_relations_tag_set.
  destruct (relations bmain) as [r|] eqn:Hr; simpl; [|by rewrite Hr].
  do 3 f_equal. rewrite <- !map_fmap_compose. apply map_fmap_ext.
  intros p e _. unfold entry_tag_set, compose. simpl. f_equal.
  apply Z.bits_inj'. intros i Hi.
  assert (Z.testbit tag1 i && Z.testbit tag2 i = false ∨ value1 = value2) as Hbits.
  { destruct Hcond as [?|Hland]; [by right|left].
    rewrite <- Z.land_spec, Hland. apply Z.bits_0. }
  destruct value1, value2;
    rewrite !uint_testbit; (case_decide; [|done]);
    rewrite ?Z.lor_spec, ?Z.land_spec, ?uint_testbit, ?decide_True by done;
    rewrite ?Z.lor_spec, ?Z.land_spec, ?Z.lnot_spec by done;
    destruct Hbits as [Hb|?]; try done;
    destruct (Z.testbit (tags e) i), (Z.testbit tag1 i), (Z.testbit tag2 i);
    done.
Qed.

(** ** The selection filter *)

Lemma selection_filter_loop_app keep indices1 indices2 selection :
  selection_filter_loop keep (indices1 ++ indices2) selection =
  selection_filter_loop keep indices1 selection
    ≫= selection_filter_loop keep indices2.
Proof.
  revert selection. induction indices1 as [|i indices1 IH]; intros selection; simpl.
  { done. }
  destruct (selection !! Z.to_nat i) as [selected|]; simpl; [|done].
  destruct (selected && negb (keep i)); apply IH.
Qed.

(** A returning loop keeps the size of the span and switches no row on. *)
Lemma selection_filter_loop_shrinks keep indices selection selection' :
  selection_filter_loop keep indices selection = Some selection' →
  length selection' = length selection ∧
  ∀ k, selection' !! k = Some true → selection !! k = Some true.
Proof.
  revert selection. induction indices as [|i indices IH]; intros selection; simpl.
  { by intros [= <-]. }
  destruct (selection !! Z.to_nat i) as [selected|] eqn:Hi; simpl; [|done].
  destruct (selected && negb (keep i)); intros [Hlen Hk]%IH; [|done].
  rewrite length_insert in Hlen. split; [done|].
  intros k Hk'%Hk. destruct (decide (k = Z.to_nat i)) as [->|Hne].
  - rewrite list_lookup_insert_eq in Hk'; [done|]. by eapply lookup_lt_Some.
  - by rewrite list_lookup_insert_ne in Hk'.
Qed.

(** With all indices inside the span the loop returns, and a row ends
    switched on when it was on and either was not visited or is kept. *)
Lemma selection_filter_loop_lookup keep indices selection :
  (∀ i, i ∈ indices → 0 ≤ i < Z.of_nat (length selection)) →
  ∃ selection',
    selection_filter_loop keep indices selection = Some selection' ∧
    length selection' = length selection ∧
    ∀ k included, selection !! k = Some included →
      selection' !! k =
      Some (if decide (Z.of_nat k ∈ indices) then included && keep (Z.of_nat k)
            else included).
Proof.
  revert selection. induction indices as [|i indices IH]; intros selection Hin; simpl.
  { exists selection. by repeat split. }
  assert (0 ≤ i < Z.of_nat (length selection)) as Hi by (apply Hin, elem_of_cons; by left).
  destruct (lookup_lt_is_Some_2 selection (Z.to_nat i)) as [selected Hsel]; [lia|].
  rewrite Hsel. simpl.
  destruct (selected && negb (keep i)) eqn:Hcase.
  - apply andb_true_iff in Hcase as [-> Hkeep%negb_true_iff].
    destruct (IH (<[Z.to_nat i := false]> selection)) as (sel' & E & Hlen & Hlook).
    { intros j Hj. rewrite length_insert. apply Hin, elem_of_cons. by right. }
    exists sel'. split; [done|]. rewrite length_insert in Hlen. split; [done|].
    intros k b Hk. destruct (decide (k = Z.to_nat i)) as [->|Hne].
    + rewrite (Hlook (Z.to_nat i) false).
      2:{ apply list_lookup_insert_eq. lia. }
      rewrite Z2Nat.id by lia. rewrite (decide_True (P := i ∈ i :: indices)).
      2:{ apply elem_of_cons. by left. }
      rewrite Hkeep. by destruct (decide (i ∈ indices)), b.
    + rewrite (Hlook k b) by (by rewrite list_lookup_insert_ne).
      f_equal. apply decide_ext. rewrite elem_of_cons. split; [by right|].
      intros [Heq|?]; [|done]. lia.
  - destruct (IH selection) as (sel' & E & Hlen & Hlook).
    { intros j Hj. apply Hin, elem_of_cons. by right. }
    exists sel'. split; [done|]. split; [done|].
    intros k b Hk. rewrite (Hlook k b Hk).
    destruct (decide (k = Z.to_nat i)) as [->|Hne].
    + rewrite Z2Nat.id by lia. rewrite (decide_True (P := i ∈ i :: indices)).
      2:{ apply elem_of_cons. by left. }
      assert (b = selected) as -> by congruence.
      apply andb_false_iff in Hcase as [->|Hkeep%negb_false_iff].
      * by destruct (decide (i ∈ indices)).
      * rewrite Hkeep. by destruct (decide (i ∈ indices)), selected.
    + f_equal. apply decide_ext. rewrite elem_of_cons. split; [by right|].
      intros [Heq|?]; [|done]. lia.
Qed.

(** Over the first [count] rows of a span that has them, the loop computes
    [selection_filtered]. *)
Lemma selection_filter_loop_range keep count selection :
  count ≤ Z.of_nat (length selection) →
  selection_filter_loop keep (seqZ 0 count) selection =
  Some (selection_filtered keep count selection).
Proof.
  intros Hcount.
  destruct (selection_filter_loop_lookup keep (seqZ 0 count) selection)
    as (sel' & E & Hlen & Hlook).
  { intros i Hi%elem_of_seqZ. lia. }
  rewrite E. f_equal. apply list_eq. intros k.
  unfold selection_filtered. rewrite list_lookup_imap.
  destruct (selection !! k) as [b|] eqn:Hk; simpl.
  - rewrite (Hlook k b Hk). f_equal. apply decide_ext.
    rewrite elem_of_seqZ. lia.
  - apply lookup_ge_None. rewrite Hlen. by apply lookup_ge_None.
Qed.

Lemma selection_filtered_length keep count selection :
  length (selection_filtered keep count selection) = length selection.
Proof. unfold selection_filtered. apply length_imap. Qed.

(** A span with fewer rows than the loop visits is indexed past its end. *)
Lemma selection_filter_loop_short keep count selection :
  Z.of_nat (length selection) < count →
  selection_filter_loop keep (seqZ 0 count) selection = None.
Proof.
  intros Hshort.
  replace count with (Z.of_nat (length selection) + (count - Z.of_nat (length selection))) by lia.
  rewrite seqZ_app by lia. rewrite selection_filter_loop_app.
  rewrite selection_filter_loop_range by lia. simpl.
  rewrite Z.add_0_l. rewrite seqZ_cons by lia. simpl.
  rewrite Nat2Z.id.
  rewrite (proj2 (lookup_ge_None _ _)); [done|].
  by rewrite selection_filtered_length.
Qed.

Lemma selection_filtered_idemp keep count selection :
  selection_filtered keep count (selection_filtered keep count selection) =
  selection_filtered keep count selection.
Proof.
  apply list_eq. intros k. unfold selection_filtered. rewrite !list_lookup_imap.
  destruct (selection !! k) as [b|]; simpl; [|done].
  f_equal. case_decide; [|done]. by destruct b, (keep (Z.of_nat k)).
Qed.

Lemma selection_filter_loop_idemp keep count selection selection' :
  selection_filter_loop keep (seqZ 0 count) selection = Some selection' →
  selection_filter_loop keep (seqZ 0 count) selection' = Some selection'.
Proof.
  intros E. destruct (Z.le_gt_cases count (Z.of_nat (length selection))) as [Hle|Hgt].
  - rewrite selection_filter_loop_range in E by done. injection E as <-.
    rewrite selection_filter_loop_range by (by rewrite selection_filtered_length).
    by rewrite selection_filtered_idemp.
  - rewrite selection_filter_loop_short in E by lia. done.
Qed.

Section selection_facts.
Context (is_vertex_selected_fn : Z → bool).

Lemma get_selected_vertex_indices_loop_eq indices selection :
  get_selected_vertex_indices_loop is_vertex_selected_fn indices selection =
  selection_filter_loop is_vertex_selected_fn indices selection.
Proof.
  revert selection. induction indices as [|i indices IH]; intros selection; simpl.
  { done. }
  destruct (selection !! Z.to_nat i) as [[]|]; simpl; [|done|done].
  destruct (is_vertex_selected_fn i); simpl; apply IH.
Qed.

Lemma get_selected_corner_indices_loop_eq mesh indices selection :
  get_selected_corner_indices_loop is_vertex_selected_fn mesh indices selection =
  selection_filter_loop (corner_kept is_vertex_selected_fn mesh) indices selection.
Proof.
  revert selection. induction indices as [|i indices IH]; intros selection; simpl.
  { done. }
  destruct (selection !! Z.to_nat i) as [[]|]; simpl; [|done|done].
  unfold corner_kept at 1.
  destruct (is_vertex_selected_fn (MLoop_v (mloop mesh i))); simpl; apply IH.
Qed.

Lemma get_selected_edge_indices_loop_eq mesh indices selection :
  get_selected_edge_indices_loop is_vertex_selected_fn mesh indices selection =
  selection_filter_loop (edge_kept is_vertex_selected_fn mesh) indices selection.
Proof.
  revert selection. induction indices as [|i indices IH]; intros selection; simpl.
  { done. }
  destruct (selection !! Z.to_nat i) as [[]|]; simpl; [|done|done].
  unfold edge_kept at 1.
  destruct (is_vertex_selected_fn (MEdge_v1 (medge mesh i))),
    (is_vertex_selected_fn (MEdge_v2 (medge mesh i))); simpl; apply IH.
Qed.

Lemma face_has_unselected_vertex_forallb mesh loop_indices :
  face_has_unselected_vertex is_vertex_selected_fn mesh loop_indices =
  negb (forallb (λ loop_index, is_vertex_selected_fn (MLoop_v (mloop mesh loop_index)))
          loop_indices).
Proof.
  induction loop_indices as [|l loop_indices IH]; simpl; [done|].
  by destruct (is_vertex_selected_fn (MLoop_v (mloop mesh l))).
Qed.

Lemma get_selected_face_indices_loop_eq mesh indices selection :
  get_selected_face_indices_loop is_vertex_selected_fn mesh indices selection =
  selection_filter_loop (face_kept is_vertex_selected_fn mesh) indices selection.
Proof.
  revert selection. induction indices as [|i indices IH]; intros selection; simpl.
  { done. }
  destruct (selection !! Z.to_nat i) as [[]|]; simpl; [|done|done].
  unfold IndexRange. rewrite face_has_unselected_vertex_forallb.
  unfold face_kept at 1.
  destruct (forallb _ _); simpl; apply IH.
Qed.

Context (ATTR_DOMAIN_POINT ATTR_DOMAIN_FACE ATTR_DOMAIN_CORNER ATTR_DOMAIN_EDGE : Z).

Lemma get_selected_indices_on_domain_eq mesh domain selection :
  get_selected_indices_on_domain is_vertex_selected_fn
    ATTR_DOMAIN_POINT ATTR_DOMAIN_FACE ATTR_DOMAIN_CORNER ATTR_DOMAIN_EDGE
    mesh domain selection =
  selection_filter_loop
    (domain_kept is_vertex_selected_fn
       ATTR_DOMAIN_POINT ATTR_DOMAIN_FACE ATTR_DOMAIN_CORNER ATTR_DOMAIN_EDGE
       mesh domain).1
    (seqZ 0 (domain_kept is_vertex_selected_fn
               ATTR_DOMAIN_POINT ATTR_DOMAIN_FACE ATTR_DOMAIN_CORNER ATTR_DOMAIN_EDGE
               mesh domain).2)
    selection.
Proof.
  unfold get_selected_indices_on_domain, domain_kept.
  repeat case_bool_decide; simpl.
  - apply get_selected_vertex_indices_loop_eq.
  - apply get_selected_face_indices_loop_eq.
  - apply get_selected_corner_indices_loop_eq.
  - apply get_selected_edge_indices_loop_eq.
  - done.
Qed.

End selection_facts.

Lemma selection_filter_loop_rows keep count selection :
  count ≤ Z.of_nat (length selection) →
  ∃ selection',
    selection_filter_loop keep (seqZ 0 count) selection = Some selection' ∧
    length selection' = length selection ∧
    ∀ (k : nat) included, selection !! k = Some included →
      selection' !! k =
      Some (if decide (Z.of_nat k < count) then included && keep (Z.of_nat k)
            else included).
Proof.
  intros Hcount. exists (selection_filtered keep count selection).
  split; [by apply selection_filter_loop_range|].
  split; [apply selection_filtered_length|].
  intros k included Hk. unfold selection_filtered.
  by rewrite list_lookup_imap, Hk.
Qed.

Section selection_properties.
Context (is_vertex_selected_fn : Z → bool).

(** X8. On a span that has a row for every vertex,
    [get_selected_vertex_indices] returns a span of the same size in which
    the row of a vertex is on exactly when it was on and the vertex is
    selected; rows past the vertices are left alone. *)
Theorem get_selected_vertex_indices_rows mesh selection :
  0 ≤ totvert mesh ≤ Z.of_nat (length selection) →
  ∃ selection',
    get_selected_vertex_indices is_vertex_selected_fn mesh selection = Some selection' ∧
    length selection' = length selection ∧
    ∀ (k : nat) included, selection !! k = Some included →
      selection' !! k =
      Some (if decide (Z.of_nat k < totvert mesh)
            then included && is_vertex_selected_fn (Z.of_nat k)
            else included).
Proof.
  intros [_ Hcount]. unfold get_selected_vertex_indices, IndexRange.
  rewrite get_selected_vertex_indices_loop_eq.
  by apply selection_filter_loop_rows.
Qed.

(** X9. [get_selected_corner_indices] keeps the row of a face corner on
    exactly when it was on and the vertex of the corner is selected. *)
Theorem get_selected_corner_indices_rows mesh selection :
  0 ≤ totloop mesh ≤ Z.of_nat (length selection) →
  ∃ selection',
    get_selected_corner_indices is_vertex_selected_fn mesh selection = Some selection' ∧
    length selection' = length selection ∧
    ∀ (k : nat) included, selection !! k = Some included →
      selection' !! k =
      Some (if decide (Z.of_nat k < totloop mesh)
            then included
                 && is_vertex_selected_fn (MLoop_v (mloop mesh (Z.of_nat k)))
            else included).
Proof.
  intros [_ Hcount]. unfold get_selected_corner_indices, IndexRange.
  rewrite get_selected_corner_indices_loop_eq.
  by apply selection_filter_loop_rows.
Qed.

(** X10. [get_selected_edge_indices] keeps the row of an edge on exactly
    when it was on and both vertices of the edge are selected. *)
Theorem get_selected_edge_indices_rows mesh selection :
  0 ≤ totedge mesh ≤ Z.of_nat (length selection) →
  ∃ selection',
    get_selected_edge_indices is_vertex_selected_fn mesh selection = Some selection' ∧
    length selection' = length selection ∧
    ∀ (k : nat) included, selection !! k = Some included →
      selection' !! k =
      Some (if decide (Z.of_nat k < totedge mesh)
            then included
                 && (is_vertex_selected_fn (MEdge_v1 (medge mesh (Z.of_nat k)))
                     && is_vertex_selected_fn (MEdge_v2 (medge mesh (Z.of_nat k))))
            else included).
Proof.
  intros [_ Hcount]. unfold get_selected_edge_indices, IndexRange.
  rewrite get_selected_edge_indices_loop_eq.
  by apply selection_filter_loop_rows.
Qed.

(** X11. [get_selected_face_indices] keeps the row of a face on exactly
    when it was on and the vertex of every corner of the face, from
    [loopstart] on for [totloop] corners, is selected; a face without
    corners stays on. *)
Theorem get_selected_face_indices_rows mesh selection :
  0 ≤ totpoly mesh ≤ Z.of_nat (length selection) →
  ∃ selection',
    get_selected_face_indices is_vertex_selected_fn mesh selection = Some selection' ∧
    length selection' = length selection ∧
    ∀ (k : nat) included, selection !! k = Some included →
      selection' !! k =
      Some (if decide (Z.of_nat k < totpoly mesh)
            then included
                 && forallb (λ loop_index,
                               is_vertex_selected_fn (MLoop_v (mloop mesh loop_index)))
                      (seqZ (MPoly_loopstart (mpoly mesh (Z.of_nat k)))
                            (MPoly_totloop (mpoly mesh (Z.of_nat k))))
            else included).
Proof.
  intros [_ Hcount]. unfold get_selected_face_indices, IndexRange.
  rewrite get_selected_face_indices_loop_eq.
  by apply selection_filter_loop_rows.
Qed.

(** X12. A span with fewer rows than the mesh has elements of the domain
    is indexed past its end: none of the four filters has a result then. *)
Theorem get_selected_indices_short_span mesh selection :
  (Z.of_nat (length selection) < totvert mesh →
   get_selected_vertex_indices is_vertex_selected_fn mesh selection = None) ∧
  (Z.of_nat (length selection) < totloop mesh →
   get_selected_corner_indices is_vertex_selected_fn mesh selection = None) ∧
  (Z.of_nat (length selection) < totpoly mesh →
   get_selected_face_indices is_vertex_selected_fn mesh selection = None) ∧
  (Z.of_nat (length selection) < totedge mesh →
   get_selected_edge_indices is_vertex_selected_fn mesh selection = None).
Proof.
  unfold get_selected_vertex_indices, get_selected_corner_indices,
    get_selected_face_indices, get_selected_edge_indices, IndexRange.
  rewrite get_selected_vertex_indices_loop_eq, get_selected_corner_indices_loop_eq,
    get_selected_face_indices_loop_eq, get_selected_edge_indices_loop_eq.
  repeat split; apply selection_filter_loop_short.
Qed.

Context (ATTR_DOMAIN_POINT ATTR_DOMAIN_FACE ATTR_DOMAIN_CORNER ATTR_DOMAIN_EDGE : Z).

(** X13. Filtering a second time, on the same domain and with the same
    vertex selection, changes nothing. *)
Theorem get_selected_indices_on_domain_idempotent mesh domain selection selection' :
  get_selected_indices_on_domain is_vertex_selected_fn
    ATTR_DOMAIN_POINT ATTR_DOMAIN_FACE ATTR_DOMAIN_CORNER ATTR_DOMAIN_EDGE
    mesh domain selection = Some selection' →
  get_selected_indices_on_domain is_vertex_selected_fn
    ATTR_DOMAIN_POINT ATTR_DOMAIN_FACE ATTR_DOMAIN_CORNER ATTR_DOMAIN_EDGE
    mesh domain selection' = Some selection'.
Proof.
  rewrite !get_selected_indices_on_domain_eq. apply selection_filter_loop_idemp.
Qed.

End selection_properties.

(** X14. Whatever it is given, [apply_selection_filter], when it returns,
    returns a span of the same size in which no row is on that was off. *)
Theorem apply_selection_filter_only_excludes env
    ATTR_DOMAIN_POINT ATTR_DOMAIN_FACE ATTR_DOMAIN_CORNER ATTR_DOMAIN_EDGE
    OB_MODE_EDIT GEO_COMPONENT_TYPE_MESH object_eval_mode component_type
    mesh_eval bm domain_ rows_included rows_included' :
  apply_selection_filter env
    ATTR_DOMAIN_POINT ATTR_DOMAIN_FACE ATTR_DOMAIN_CORNER ATTR_DOMAIN_EDGE
    OB_MODE_EDIT GEO_COMPONENT_TYPE_MESH object_eval_mode component_type
    mesh_eval bm domain_ rows_included = Some rows_included' →
  length rows_included' = length rows_included ∧
  ∀ k : nat, rows_included' !! k = Some true → rows_included !! k = Some true.
Proof.
  unfold apply_selection_filter.
  destruct (BLI_assert env (bool_decide (object_eval_mode = OB_MODE_EDIT)));
    simpl; [|done].
  destruct (BLI_assert env (bool_decide (component_type = GEO_COMPONENT_TYPE_MESH)));
    simpl; [|done].
  destruct (vdata_CD_ORIGINDEX mesh_eval) as [orig_indices|].
  - rewrite get_selected_indices_on_domain_eq. apply selection_filter_loop_shrinks.
  - case_bool_decide.
    + rewrite get_selected_indices_on_domain_eq. apply selection_filter_loop_shrinks.
    + by intros [= <-].
Qed.

(** X15. On the point domain and with a [CD_ORIGINDEX] layer, the row of a
    vertex stays on exactly when it was on, the original index of the vertex
    is one of the edit mesh, and that vertex of the edit mesh is selected. A
    vertex whose original index is negative or not below the vertex count of
    the edit mesh is always taken out. *)
Theorem apply_selection_filter_origindex env
    ATTR_DOMAIN_POINT ATTR_DOMAIN_FACE ATTR_DOMAIN_CORNER ATTR_DOMAIN_EDGE
    OB_MODE_EDIT GEO_COMPONENT_TYPE_MESH object_eval_mode component_type
    mesh_eval bm rows_included orig_indices :
  BLI_assert_enabled env = false ∨
    (object_eval_mode = OB_MODE_EDIT ∧ component_type = GEO_COMPONENT_TYPE_MESH) →
  vdata_CD_ORIGINDEX mesh_eval = Some orig_indices →
  0 ≤ totvert mesh_eval ≤ Z.of_nat (length rows_included) →
  ∃ rows_included',
    apply_selection_filter env
      ATTR_DOMAIN_POINT ATTR_DOMAIN_FACE ATTR_DOMAIN_CORNER ATTR_DOMAIN_EDGE
      OB_MODE_EDIT GEO_COMPONENT_TYPE_MESH object_eval_mode component_type
      mesh_eval bm ATTR_DOMAIN_POINT rows_included = Some rows_included' ∧
    ∀ (k : nat) included, rows_included !! k = Some included →
      rows_included' !! k =
      Some (if decide (Z.of_nat k < totvert mesh_eval)
            then included
                 && (if decide (0 ≤ orig_indices (Z.of_nat k) < bm_totvert bm)
                     then bm_vtable_select bm (orig_indices (Z.of_nat k))
                     else false)
            else included).
Proof.
  intros Hassert Hlayer Hcount. unfold apply_selection_filter.
  assert (∀ a b, (BLI_assert_enabled env = false ∨ (a = b ∧ True)) →
                 BLI_assert env (bool_decide (a = b :> Z)) = Some tt) as Hok.
  { intros a b [Hoff|[-> _]]; unfold BLI_assert.
    - by rewrite Hoff.
    - rewrite bool_decide_eq_true_2 by done. by rewrite andb_false_r. }
  rewrite !Hok by (destruct Hassert as [?|[? ?]]; [by left|by right]). simpl.
  rewrite Hlayer. unfold get_selected_indices_on_domain.
  rewrite bool_decide_eq_true_2 by done.
  destruct (get_selected_vertex_indices_rows
              (is_vertex_selected_by_origindex orig_indices bm) mesh_eval rows_included
              Hcount) as (rows' & E & _ & Hrows).
  exists rows'. split; [done|]. intros k included Hk. rewrite (Hrows k included Hk).
  f_equal. destruct (decide (Z.of_nat k < totvert mesh_eval)); [|done]. f_equal.
  unfold is_vertex_selected_by_origindex.
  repeat case_bool_decide; case_decide; try done; lia.
Qed.

(** X16. Without a [CD_ORIGINDEX] layer the vertices are matched by
    position, and only when the evaluated mesh and the edit mesh have the
    same number of them: on the point domain the row of a vertex then stays
    on exactly when it was on and the vertex of the edit mesh at that
    position is selected. When the counts differ every row is left as it is,
    on every domain. *)
Theorem apply_selection_filter_no_layer env
    ATTR_DOMAIN_POINT ATTR_DOMAIN_FACE ATTR_DOMAIN_CORNER ATTR_DOMAIN_EDGE
    OB_MODE_EDIT GEO_COMPONENT_TYPE_MESH object_eval_mode component_type
    mesh_eval bm rows_included :
  BLI_assert_enabled env = false ∨
    (object_eval_mode = OB_MODE_EDIT ∧ component_type = GEO_COMPONENT_TYPE_MESH) →
  vdata_CD_ORIGINDEX mesh_eval = None →
  0 ≤ totvert mesh_eval ≤ Z.of_nat (length rows_included) →
  (∃ rows_included',
     apply_selection_filter env
       ATTR_DOMAIN_POINT ATTR_DOMAIN_FACE ATTR_DOMAIN_CORNER ATTR_DOMAIN_EDGE
       OB_MODE_EDIT GEO_COMPONENT_TYPE_MESH object_eval_mode component_type
       mesh_eval bm ATTR_DOMAIN_POINT rows_included = Some rows_included' ∧
     ∀ (k : nat) included, rows_included !! k = Some included →
       rows_included' !! k =
       Some (if decide (totvert mesh_eval = bm_totvert bm
                        ∧ Z.of_nat k < totvert mesh_eval)
             then included && bm_vtable_select bm (Z.of_nat k)
             else included)) ∧
  (totvert mesh_eval ≠ bm_totvert bm →
   ∀ domain_,
     apply_selection_filter env
       ATTR_DOMAIN_POINT ATTR_DOMAIN_FACE ATTR_DOMAIN_CORNER ATTR_DOMAIN_EDGE
       OB_MODE_EDIT GEO_COMPONENT_TYPE_MESH object_eval_mode component_type
       mesh_eval bm domain_ rows_included = Some rows_included).
Proof.
  intros Hassert Hlayer Hcount. unfold apply_selection_filter.
  assert (BLI_assert env (bool_decide (object_eval_mode = OB_MODE_EDIT)) = Some tt
          ∧ BLI_assert env (bool_decide (component_type = GEO_COMPONENT_TYPE_MESH))
            = Some tt) as [-> ->].
  { unfold BLI_assert. destruct Hassert as [->|[-> ->]]; [done|].
    rewrite (bool_decide_eq_true_2 (OB_MODE_EDIT = OB_MODE_EDIT)) by done.
    rewrite (bool_decide_eq_true_2 (GEO_COMPONENT_TYPE_MESH = GEO_COMPONENT_TYPE_MESH))
      by done.
    by rewrite andb_false_r. }
  simpl. rewrite Hlayer. split.
  - case_bool_decide as Hsame.
    + unfold get_selected_indices_on_domain.
      rewrite (bool_decide_eq_true_2 (ATTR_DOMAIN_POINT = ATTR_DOMAIN_POINT)) by done.
      destruct (get_selected_vertex_indices_rows (is_vertex_selected_by_position bm)
                  mesh_eval rows_included Hcount) as (rows' & E & _ & Hrows).
      exists rows'. split; [done|]. intros k included Hk.
      rewrite (Hrows k included Hk). f_equal. unfold is_vertex_selected_by_position.
      repeat case_decide; try done; naive_solver.
    + exists rows_included. split; [done|]. intros k included Hk. rewrite Hk.
      f_equal. rewrite decide_False; [done|]. by intros [? _].
  - intros Hdiffer domain_. by rewrite (bool_decide_eq_false_2 _ Hdiffer).
Qed.

(** ** The list-bases of [Main] *)

(** X17. The array [set_listbasepointers] fills does not depend on what was
    in it; it holds the list-base of every ID type [which_libbase] knows, and
    every list-base it holds is the one of some ID type: walking the array
    reaches the IDs of all types and nothing else. The count returned is
    [INDEX_ID_MAX - 1]. *)
Theorem set_listbasepointers_covers_which_libbase INDEX_ID_MAX lb :
  (set_listbasepointers INDEX_ID_MAX lb).2 = INDEX_ID_MAX - 1 ∧
  (∀ lb' index,
     (set_listbasepointers INDEX_ID_MAX lb).1 index =
     (set_listbasepointers INDEX_ID_MAX lb').1 index) ∧
  (∀ type listbase,
     which_libbase type = Some listbase →
     ∃ index, (set_listbasepointers INDEX_ID_MAX lb).1 index = Some listbase) ∧
  (∀ index listbase,
     (set_listbasepointers INDEX_ID_MAX lb).1 index = Some listbase →
     ∃ type, which_libbase type = Some listbase).
Proof.
  split; [reflexivity|]. split; [|split].
  - intros lb' index. destruct index; vm_compute; reflexivity.
  - intros type listbase Hl.
    destruct type; simpl in Hl; [injection Hl as <-..|discriminate Hl];
      find_INDEX_ID.
  - intros index listbase Hl.
    destruct index; vm_compute in Hl; [injection Hl as <-..|discriminate Hl];
      find_ID_Type.
Qed.

(** X18. No list-base is at two positions of the array, the only null
    position is [INDEX_ID_NULL], and no list-base belongs to two ID types:
    a walk over the array meets each list, hence each ID, once. *)
Theorem set_listbasepointers_no_duplicates INDEX_ID_MAX lb :
  (∀ index1 index2 listbase,
     (set_listbasepointers INDEX_ID_MAX lb).1 index1 = Some listbase →
     (set_listbasepointers INDEX_ID_MAX lb).1 index2 = Some listbase →
     index1 = index2) ∧
  (∀ index, (set_listbasepointers INDEX_ID_MAX lb).1 index = None ↔
            index = INDEX_ID_NULL) ∧
  (∀ type1 type2 listbase,
     which_libbase type1 = Some listbase → which_libbase type2 = Some listbase →
     type1 = type2).
Proof.
  split; [|split].
  - intros index1 index2 listbase H1 H2.
    destruct index1; vm_compute in H1; [injection H1 as <-..|discriminate H1];
      destruct index2; vm_compute in H2;
      first [reflexivity | discriminate H2].
  - intros index. destruct index; vm_compute; split; intros H;
      first [reflexivity | discriminate H].
  - intros type1 type2 listbase H1 H2.
    destruct type1; simpl in H1; [injection H1 as <-..|discriminate H1];
      destruct type2; simpl in H2;
      first [reflexivity | discriminate H2].
Qed.

(** ** The instances data source and the choice of a data source *)

Section instances_properties.
Context {float4x4 float3 ColumnWidth ColumnValues : Type}.
Context (translation to_euler scale : float4x4 → float3).
Context (column_values_from_function :
           InstancesDataSource.ColumnValueType → string → Z →
           (Z → option (@InstancesDataSource.CellValue float3) →
            option (@InstancesDataSource.CellValue float3)) →
           option ColumnWidth → ColumnValues).
Context (set_default_width : ColumnValues → ColumnWidth → ColumnValues).
Context (width_8_0f width_5_5f default_float3_column_width : ColumnWidth).

(** X19. An instances data source has a column exactly for the column ids
    it lists as defaults: for a component without instances it lists none
    and has no column at all, otherwise it lists five different names and
    has a column for these and for no other name. *)
Theorem InstancesDataSource_columns_are_defaults
    (component_ : @InstancesDataSource.InstancesComponent float4x4)
    (column_id : SpreadsheetColumnID) :
  (is_Some (InstancesDataSource.get_column_values translation to_euler scale
              column_values_from_function set_default_width
              width_8_0f width_5_5f default_float3_column_width
              component_ column_id) ↔
   column_id ∈ InstancesDataSource.foreach_default_column_ids component_) ∧
  NoDup (InstancesDataSource.foreach_default_column_ids component_) ∧
  (InstancesDataSource.instances_amount component_ = 0 →
   InstancesDataSource.foreach_default_column_ids component_ = []).
Proof.
  unfold InstancesDataSource.get_column_values,
    InstancesDataSource.foreach_default_column_ids.
  case_bool_decide as Hamount.
  { split; [|split; [constructor|done]]. split; [by intros [? ?]|].
    by intros ?%elem_of_nil. }
  split; [|split; [|done]].
  - destruct column_id as [column_name]. simpl.
    rewrite !elem_of_cons, elem_of_nil.
    destruct (String.eqb_spec column_name "Name") as [->|HName].
    { split; [by left|by eexists]. }
    destruct (String.eqb_spec column_name "Position") as [->|HPosition].
    { split; [by right; left|by eexists]. }
    destruct (String.eqb_spec column_name "Rotation") as [->|HRotation].
    { split; [by right; right; left|by eexists]. }
    destruct (String.eqb_spec column_name "Scale") as [->|HScale].
    { split; [by right; right; right; left|by eexists]. }
    destruct (String.eqb_spec column_name "ID") as [->|HID].
    { split; [by right; right; right; right; left|by eexists]. }
    split; [by intros [? ?]|]. intros H. exfalso.
    repeat (destruct H as [[= ?]|H]; [done|]). done.
  - simpl. repeat (constructor; [rewrite ?elem_of_cons, elem_of_nil; naive_solver|]).
    constructor.
Qed.

(** X20. Every column an instances data source returns was built for the
    name asked for and for as many rows as the component has instances. *)
Theorem InstancesDataSource_column_name_and_size
    (component_ : @InstancesDataSource.InstancesComponent float4x4)
    (column_id : SpreadsheetColumnID) values :
  InstancesDataSource.get_column_values translation to_euler scale
    column_values_from_function set_default_width
    width_8_0f width_5_5f default_float3_column_width
    component_ column_id = Some values →
  InstancesDataSource.tot_rows component_ ≠ 0 ∧
  ∃ type get_value width,
    values = column_values_from_function type (name column_id)
               (InstancesDataSource.tot_rows component_) get_value width ∨
    values = set_default_width
               (column_values_from_function type (name column_id)
                  (InstancesDataSource.tot_rows component_) get_value width)
               width_8_0f.
Proof.
  unfold InstancesDataSource.get_column_values, InstancesDataSource.tot_rows.
  case_bool_decide as Hamount; [done|]. intros Hvalues. split; [done|].
  destruct (String.eqb_spec (name column_id) "Name") as [HName|_].
  { injection Hvalues as <-. rewrite HName. eexists _, _, _. by right. }
  repeat (destruct (String.eqb (name column_id) _);
          [injection Hvalues as <-; eexists _, _, _; by left|]).
  done.
Qed.

End instances_properties.

(** X21. With the original object shown, the component type is the point
    cloud one for a point cloud object and the mesh one otherwise, whatever
    type the editor has stored; so, the three enumerators being different,
    no instances data source is made in that state. In every state the data
    source is absent exactly when the geometry set lacks the component, and a
    geometry data source gets the attribute domain of the editor. *)
Theorem data_source_from_geometry_original_state {GeometrySet : Type}
    (K : DataSourceConstants)
    (spreadsheet_get_display_geometry_set : SpaceSpreadsheet → Object → Z → GeometrySet)
    (has : GeometrySet → Z → bool) sspreadsheet object_eval :
  GEO_COMPONENT_TYPE_INSTANCES K ≠ GEO_COMPONENT_TYPE_MESH K →
  GEO_COMPONENT_TYPE_INSTANCES K ≠ GEO_COMPONENT_TYPE_POINT_CLOUD K →
  (object_eval_state sspreadsheet = SPREADSHEET_OBJECT_EVAL_STATE_ORIGINAL K →
   ∀ geometry_set,
     data_source_from_geometry K spreadsheet_get_display_geometry_set has
       sspreadsheet object_eval ≠ Some (make_InstancesDataSource geometry_set)) ∧
  (data_source_from_geometry K spreadsheet_get_display_geometry_set has
     sspreadsheet object_eval = None ↔
   has (spreadsheet_get_display_geometry_set sspreadsheet object_eval
          (get_display_component_type K sspreadsheet object_eval))
       (get_display_component_type K sspreadsheet object_eval) = false) ∧
  (∀ object geometry_set component_type domain,
     data_source_from_geometry K spreadsheet_get_display_geometry_set has
       sspreadsheet object_eval
     = Some (make_GeometryDataSource object geometry_set component_type domain) →
     domain = attribute_domain sspreadsheet ∧ object = object_eval ∧
     component_type = get_display_component_type K sspreadsheet object_eval ∧
     component_type ≠ GEO_COMPONENT_TYPE_INSTANCES K).
Proof.
  intros Hmesh Hcloud. unfold data_source_from_geometry.
  set (component_type := get_display_component_type K sspreadsheet object_eval).
  set (geometry_set := spreadsheet_get_display_geometry_set _ _ _).
  split; [|split].
  - intros Horiginal gs.
    assert (component_type ≠ GEO_COMPONENT_TYPE_INSTANCES K) as Hne.
    { unfold component_type, get_display_component_type.
      rewrite bool_decide_eq_false_2 by (by intros ?).
      case_bool_decide; congruence. }
    destruct (has geometry_set component_type); simpl; [|done].
    by rewrite bool_decide_eq_false_2.
  - destruct (has geometry_set component_type); simpl; [|done].
    by case_bool_decide.
  - intros object gs ct domain.
    destruct (has geometry_set component_type); simpl; [|done].
    case_bool_decide; [done|]. by intros [= <- <- <- <-].
Qed.

(** ** The properties on the samples *)


(** X7 on the tagged Index: setting tag 1 and clearing tag 2. *)
Lemma BKE_main_relations_tag_set_commute_witness :
  (true = false ∨ Z.land 1 2 = 0) ∧
  BKE_main_relations_tag_set (BKE_main_relations_tag_set tagged_main 2 false) 1 true
    = BKE_main_relations_tag_set (BKE_main_relations_tag_set tagged_main 1 true) 2 false.
Proof.
  split; [by right|].
  apply (BKE_main_relations_tag_set_commute tagged_main 1 true 2 false). by right.
Defined.

(** X8 on the sample mesh, with the vertices 0 and 1 selected. *)
Lemma get_selected_vertex_indices_rows_witness :
  0 ≤ totvert sample_mesh ≤ Z.of_nat (length sample_rows) ∧
  ∃ selection',
    get_selected_vertex_indices (bm_vtable_select sample_bm) sample_mesh sample_rows
      = Some selection' ∧
    length selection' = length sample_rows ∧
    ∀ (k : nat) included, sample_rows !! k = Some included →
      selection' !! k =
      Some (if decide (Z.of_nat k < totvert sample_mesh)
            then included && bm_vtable_select sample_bm (Z.of_nat k)
            else included).
Proof.
  assert (0 ≤ totvert sample_mesh ≤ Z.of_nat (length sample_rows)) as H
    by (simpl; lia).
  split; [exact H|].
  exact (get_selected_vertex_indices_rows (bm_vtable_select sample_bm) sample_mesh
           sample_rows H).
Defined.

(** X9 on the sample mesh. *)
Lemma get_selected_corner_indices_rows_witness :
  0 ≤ totloop sample_mesh ≤ Z.of_nat (length sample_rows) ∧
  ∃ selection',
    get_selected_corner_indices (bm_vtable_select sample_bm) sample_mesh sample_rows
      = Some selection' ∧
    length selection' = length sample_rows ∧
    ∀ (k : nat) included, sample_rows !! k = Some included →
      selection' !! k =
      Some (if decide (Z.of_nat k < totloop sample_mesh)
            then included
                 && bm_vtable_select sample_bm
                      (MLoop_v (mloop sample_mesh (Z.of_nat k)))
            else included).
Proof.
  assert (0 ≤ totloop sample_mesh ≤ Z.of_nat (length sample_rows)) as H
    by (simpl; lia).
  split; [exact H|].
  exact (get_selected_corner_indices_rows (bm_vtable_select sample_bm) sample_mesh
           sample_rows H).
Defined.

(** X10 on the sample mesh. *)
Lemma get_selected_edge_indices_rows_witness :
  0 ≤ totedge sample_mesh ≤ Z.of_nat (length sample_rows) ∧
  ∃ selection',
    get_selected_edge_indices (bm_vtable_select sample_bm) sample_mesh sample_rows
      = Some selection' ∧
    length selection' = length sample_rows ∧
    ∀ (k : nat) included, sample_rows !! k = Some included →
      selection' !! k =
      Some (if decide (Z.of_nat k < totedge sample_mesh)
            then included
                 && (bm_vtable_select sample_bm
                       (MEdge_v1 (medge sample_mesh (Z.of_nat k)))
                     && bm_vtable_select sample_bm
                          (MEdge_v2 (medge sample_mesh (Z.of_nat k))))
            else included).
Proof.
  assert (0 ≤ totedge sample_mesh ≤ Z.of_nat (length sample_rows)) as H
    by (simpl; lia).
  split; [exact H|].
  exact (get_selected_edge_indices_rows (bm_vtable_select sample_bm) sample_mesh
           sample_rows H).
Defined.

(** X11 on the sample mesh. *)
Lemma get_selected_face_indices_rows_witness :
  0 ≤ totpoly sample_mesh ≤ Z.of_nat (length sample_rows) ∧
  ∃ selection',
    get_selected_face_indices (bm_vtable_select sample_bm) sample_mesh sample_rows
      = Some selection' ∧
    length selection' = length sample_rows ∧
    ∀ (k : nat) included, sample_rows !! k = Some included →
      selection' !! k =
      Some (if decide (Z.of_nat k < totpoly sample_mesh)
            then included
                 && forallb (λ loop_index,
                               bm_vtable_select sample_bm
                                 (MLoop_v (mloop sample_mesh loop_index)))
                      (seqZ (MPoly_loopstart (mpoly sample_mesh (Z.of_nat k)))
                            (MPoly_totloop (mpoly sample_mesh (Z.of_nat k))))
            else included).
Proof.
  assert (0 ≤ totpoly sample_mesh ≤ Z.of_nat (length sample_rows)) as H
    by (simpl; lia).
  split; [exact H|].
  exact (get_selected_face_indices_rows (bm_vtable_select sample_bm) sample_mesh
           sample_rows H).
Defined.

(** X13 on the edges of the sample mesh: of the three edges only the one
    between the vertices 0 and 1 stays. *)
Lemma get_selected_indices_on_domain_idempotent_witness :
  get_selected_indices_on_domain (bm_vtable_select sample_bm)
    sample_ATTR_DOMAIN_POINT sample_ATTR_DOMAIN_FACE
    sample_ATTR_DOMAIN_CORNER sample_ATTR_DOMAIN_EDGE
    sample_mesh sample_ATTR_DOMAIN_EDGE [true; true; true]
  = Some [true; false; false] ∧
  get_selected_indices_on_domain (bm_vtable_select sample_bm)
    sample_ATTR_DOMAIN_POINT sample_ATTR_DOMAIN_FACE
    sample_ATTR_DOMAIN_CORNER sample_ATTR_DOMAIN_EDGE
    sample_mesh sample_ATTR_DOMAIN_EDGE [true; false; false]
  = Some [true; false; false].
Proof.
  assert (get_selected_indices_on_domain (bm_vtable_select sample_bm)
            sample_ATTR_DOMAIN_POINT sample_ATTR_DOMAIN_FACE
            sample_ATTR_DOMAIN_CORNER sample_ATTR_DOMAIN_EDGE
            sample_mesh sample_ATTR_DOMAIN_EDGE [true; true; true]
          = Some [true; false; false]) as H by reflexivity.
  split; [exact H|].
  exact (get_selected_indices_on_domain_idempotent (bm_vtable_select sample_bm)
           sample_ATTR_DOMAIN_POINT sample_ATTR_DOMAIN_FACE
           sample_ATTR_DOMAIN_CORNER sample_ATTR_DOMAIN_EDGE
           sample_mesh sample_ATTR_DOMAIN_EDGE [true; true; true] [true; false; false]
           H).
Defined.

(** X14 on the vertices of the sample mesh, through the [CD_ORIGINDEX]
    layer: the loose vertex 3 has no original vertex and is taken out. *)
Lemma apply_selection_filter_only_excludes_witness :
  apply_selection_filter sample_env
    sample_ATTR_DOMAIN_POINT sample_ATTR_DOMAIN_FACE
    sample_ATTR_DOMAIN_CORNER sample_ATTR_DOMAIN_EDGE
    5 0 5 0 sample_mesh sample_bm sample_ATTR_DOMAIN_POINT sample_rows
  = Some [true; true; false; false] ∧
  length [true; true; false; false] = length sample_rows ∧
  ∀ k : nat, [true; true; false; false] !! k = Some true →
             sample_rows !! k = Some true.
Proof.
  assert (apply_selection_filter sample_env
            sample_ATTR_DOMAIN_POINT sample_ATTR_DOMAIN_FACE
            sample_ATTR_DOMAIN_CORNER sample_ATTR_DOMAIN_EDGE
            5 0 5 0 sample_mesh sample_bm sample_ATTR_DOMAIN_POINT sample_rows
          = Some [true; true; false; false]) as H by reflexivity.
  split; [exact H|].
  exact (apply_selection_filter_only_excludes sample_env
           sample_ATTR_DOMAIN_POINT sample_ATTR_DOMAIN_FACE
           sample_ATTR_DOMAIN_CORNER sample_ATTR_DOMAIN_EDGE
           5 0 5 0 sample_mesh sample_bm sample_ATTR_DOMAIN_POINT sample_rows
           [true; true; false; false] H).
Defined.

(** X15 on the vertices of the sample mesh. *)
Lemma apply_selection_filter_origindex_witness :
  (BLI_assert_enabled sample_env = false ∨ ((5 : Z) = 5 ∧ (0 : Z) = 0)) ∧
  vdata_CD_ORIGINDEX sample_mesh
    = Some (λ i, if bool_decide (i = 3) then -1 else i) ∧
  0 ≤ totvert sample_mesh ≤ Z.of_nat (length sample_rows) ∧
  ∃ rows_included',
    apply_selection_filter sample_env
      sample_ATTR_DOMAIN_POINT sample_ATTR_DOMAIN_FACE
      sample_ATTR_DOMAIN_CORNER sample_ATTR_DOMAIN_EDGE
      5 0 5 0 sample_mesh sample_bm sample_ATTR_DOMAIN_POINT sample_rows
    = Some rows_included' ∧
    ∀ (k : nat) included, sample_rows !! k = Some included →
      rows_included' !! k =
      Some (if decide (Z.of_nat k < totvert sample_mesh)
            then included
                 && (if decide (0 ≤ (if bool_decide (Z.of_nat k = 3) then -1
                                     else Z.of_nat k) < bm_totvert sample_bm)
                     then bm_vtable_select sample_bm
                            (if bool_decide (Z.of_nat k = 3) then -1 else Z.of_nat k)
                     else false)
            else included).
Proof.
  assert (BLI_assert_enabled sample_env = false ∨ ((5 : Z) = 5 ∧ (0 : Z) = 0)) as H1
    by (right; split; reflexivity).
  assert (0 ≤ totvert sample_mesh ≤ Z.of_nat (length sample_rows)) as H3
    by (simpl; lia).
  split; [exact H1|]. split; [reflexivity|]. split; [exact H3|].
  exact (apply_selection_filter_origindex sample_env
           sample_ATTR_DOMAIN_POINT sample_ATTR_DOMAIN_FACE
           sample_ATTR_DOMAIN_CORNER sample_ATTR_DOMAIN_EDGE
           5 0 5 0 sample_mesh sample_bm sample_rows
           (λ i, if bool_decide (i = 3) then -1 else i) H1 eq_refl H3).
Defined.

(** X16 on the sample mesh without its layer: it has four vertices, the
    edit mesh three. *)
Lemma apply_selection_filter_no_layer_witness :
  (BLI_assert_enabled sample_env = false ∨ ((5 : Z) = 5 ∧ (0 : Z) = 0)) ∧
  vdata_CD_ORIGINDEX sample_mesh_without_origindex = None ∧
  0 ≤ totvert sample_mesh_without_origindex ≤ Z.of_nat (length sample_rows) ∧
  (∃ rows_included',
     apply_selection_filter sample_env
       sample_ATTR_DOMAIN_POINT sample_ATTR_DOMAIN_FACE
       sample_ATTR_DOMAIN_CORNER sample_ATTR_DOMAIN_EDGE
       5 0 5 0 sample_mesh_without_origindex sample_bm sample_ATTR_DOMAIN_POINT
       sample_rows = Some rows_included' ∧
     ∀ (k : nat) included, sample_rows !! k = Some included →
       rows_included' !! k =
       Some (if decide (totvert sample_mesh_without_origindex = bm_totvert sample_bm
                        ∧ Z.of_nat k < totvert sample_mesh_without_origindex)
             then included && bm_vtable_select sample_bm (Z.of_nat k)
             else included)) ∧
  (totvert sample_mesh_without_origindex ≠ bm_totvert sample_bm →
   ∀ domain_,
     apply_selection_filter sample_env
       sample_ATTR_DOMAIN_POINT sample_ATTR_DOMAIN_FACE
       sample_ATTR_DOMAIN_CORNER sample_ATTR_DOMAIN_EDGE
       5 0 5 0 sample_mesh_without_origindex sample_bm domain_ sample_rows
     = Some sample_rows).
Proof.
  assert (BLI_assert_enabled sample_env = false ∨ ((5 : Z) = 5 ∧ (0 : Z) = 0)) as H1
    by (right; split; reflexivity).
  assert (0 ≤ totvert sample_mesh_without_origindex ≤ Z.of_nat (length sample_rows))
    as H3 by (simpl; lia).
  split; [exact H1|]. split; [reflexivity|]. split; [exact H3|].
  exact (apply_selection_filter_no_layer sample_env
           sample_ATTR_DOMAIN_POINT sample_ATTR_DOMAIN_FACE
           sample_ATTR_DOMAIN_CORNER sample_ATTR_DOMAIN_EDGE
           5 0 5 0 sample_mesh_without_origindex sample_bm sample_rows
           H1 eq_refl H3).
Defined.

(** X20 on the column "ID" of the sample instances component. *)
Lemma InstancesDataSource_column_name_and_size_witness :
  sample_instances_get_column_values "ID"
    = Some (InstancesDataSource.SPREADSHEET_VALUE_TYPE_INT32, "ID"%string, 2, Some 55) ∧
  InstancesDataSource.tot_rows sample_instances_component ≠ 0 ∧
  ∃ type get_value width,
    (InstancesDataSource.SPREADSHEET_VALUE_TYPE_INT32, "ID"%string, 2, Some 55)
      = sample_instances_column_values_from_function type "ID"
          (InstancesDataSource.tot_rows sample_instances_component) get_value width ∨
    (InstancesDataSource.SPREADSHEET_VALUE_TYPE_INT32, "ID"%string, 2, Some 55)
      = sample_set_default_width
          (sample_instances_column_values_from_function type "ID"
             (InstancesDataSource.tot_rows sample_instances_component) get_value width)
          80.
Proof.
  assert (sample_instances_get_column_values "ID"
          = Some (InstancesDataSource.SPREADSHEET_VALUE_TYPE_INT32, "ID"%string, 2,
                  Some 55)) as H by reflexivity.
  split; [exact H|].
  exact (InstancesDataSource_column_name_and_size (λ m, m) (λ m, m) (λ m, m)
           sample_instances_column_values_from_function sample_set_default_width
           80 55 30 sample_instances_component {| name := "ID" |} _ H).
Defined.

(** X21 with the original point cloud object shown, while the editor has
    the instances component stored. *)
Lemma data_source_from_geometry_original_state_witness :
  GEO_COMPONENT_TYPE_INSTANCES sample_data_source_constants
    ≠ GEO_COMPONENT_TYPE_MESH sample_data_source_constants ∧
  GEO_COMPONENT_TYPE_INSTANCES sample_data_source_constants
    ≠ GEO_COMPONENT_TYPE_POINT_CLOUD sample_data_source_constants ∧
  data_source_from_geometry sample_data_source_constants
    (λ _ _ component_type, component_type) (λ _ _, true)
    sample_sspreadsheet sample_object_eval
  = Some (make_GeometryDataSource sample_object_eval 1 1 0) ∧
  (object_eval_state sample_sspreadsheet
     = SPREADSHEET_OBJECT_EVAL_STATE_ORIGINAL sample_data_source_constants →
   ∀ geometry_set : Z,
     data_source_from_geometry sample_data_source_constants
       (λ _ _ component_type, component_type) (λ _ _, true)
       sample_sspreadsheet sample_object_eval
     ≠ Some (make_InstancesDataSource geometry_set)).
Proof.
  assert (GEO_COMPONENT_TYPE_INSTANCES sample_data_source_constants
          ≠ GEO_COMPONENT_TYPE_MESH sample_data_source_constants) as H1
    by (simpl; lia).
  assert (GEO_COMPONENT_TYPE_INSTANCES sample_data_source_constants
          ≠ GEO_COMPONENT_TYPE_POINT_CLOUD sample_data_source_constants) as H2
    by (simpl; lia).
  split; [exact H1|]. split; [exact H2|]. split; [reflexivity|].
  exact (proj1 (data_source_from_geometry_original_state sample_data_source_constants
                  (λ _ _ component_type, component_type) (λ _ _, true)
                  sample_sspreadsheet sample_object_eval H1 H2)).
Defined.

(** The three sample columns of the instances component, and a name it has
    no column for. *)
Example sample_instances_columns :
  sample_instances_get_column_values "Name"
    = Some (InstancesDataSource.SPREADSHEET_VALUE_TYPE_INSTANCES, "Name"%string, 2,
            Some 80) ∧
  sample_instances_get_column_values "Scale"
    = Some (InstancesDataSource.SPREADSHEET_VALUE_TYPE_FLOAT3, "Scale"%string, 2,
            Some 30) ∧
  sample_instances_get_column_values "Colour" = None.
Proof. by repeat split. Qed.
